(** * The meal-capture screen, [client/app/(tabs)/camera.tsx]

    A shallow embedding of the screen's logic: the image validation
    [validateAndProcessImage], the normalization of the ingredients of an
    analysis response, the handlers of the capture / edit / post / update /
    discard life cycle, and the drag-to-remove gesture.

    Conventions.
    - A JavaScript string is the list of its UTF-16 code units ([list N]);
      [str] turns a literal of the source into that list.
    - A JavaScript number is an IEEE-754 double ([float]).
    - Values typed [any] in the source are [jsval].
    - A handler is a function on the [State] of the screen; what the
      collaborators answer (the thunks of the meal slice, AsyncStorage, the
      user's choice in a dialog) is an argument of the handler, and a
      handler runs to its end before the next event.
    - The meal slice, [@/src/store/mealSlice], is not part of the file: its
      reducers are modelled from the specification, where marked.
    - Camera, image picker, animations and styles hold no state of the life
      cycle and are left out, as are the flags [isAnalyzing] and
      [isUpdating], which only disable buttons. *)

From Stdlib Require Import ZArith NArith List String Ascii Floats.PrimFloat.
From Stdlib Require Import DecimalString DecimalNat.
From Stdlib Require QArith.QArith Floats.FloatOps Floats.SpecFloat.
From stdpp Require Import gmap strings list.

Set Default Proof Using "Type".
Open Scope Z_scope.

(** ** JavaScript strings *)

Abbreviation jsstring := (list N) (only parsing).

(** A string literal of the source, as code units. *)
Definition str (s : string) : jsstring :=
  N_of_ascii <$> list_ascii_of_string s.

(** [String.prototype.startsWith]. *)
Fixpoint startsWith (s p : jsstring) {struct p} : bool :=
  match p, s with
  | [], _ => true
  | _ :: _, [] => false
  | c :: p', d :: s' => (c =? d)%N && startsWith s' p'
  end.

(** [String.prototype.indexOf] for a search string of one code unit; [-1]
    when the unit does not occur. *)
Fixpoint indexOf (s : jsstring) (c : N) : Z :=
  match s with
  | [] => -1
  | d :: s' =>
      if (d =? c)%N then 0
      else let i := indexOf s' c in if i =? -1 then -1 else i + 1
  end.

(** [String.prototype.substring] with one argument: the start is clamped
    to the string. *)
Definition substring (s : jsstring) (start : Z) : jsstring :=
  drop (Z.to_nat start) s.

(** WhiteSpace and LineTerminator code units, which [trim] removes. *)
Definition isWhiteSpace (c : N) : bool :=
  ((9 <=? c) && (c <=? 13) || (c =? 32) || (c =? 160) || (c =? 5760)
   || (8192 <=? c) && (c <=? 8202) || (c =? 8232) || (c =? 8233)
   || (c =? 8239) || (c =? 8287) || (c =? 12288) || (c =? 65279))%N.

Fixpoint dropWhile {A} (f : A -> bool) (l : list A) : list A :=
  match l with
  | [] => []
  | x :: l' => if f x then dropWhile f l' else l
  end.

(** [String.prototype.trim]. *)
Definition trim (s : jsstring) : jsstring :=
  reverse (dropWhile isWhiteSpace (reverse (dropWhile isWhiteSpace s))).

(** The empty string is the only falsy string. *)
Definition nonEmpty (s : jsstring) : bool :=
  match s with [] => false | _ :: _ => true end.

(** The decimal numeral of an array index, as a template literal prints it. *)
Definition decimal (n : nat) : jsstring :=
  str (NilEmpty.string_of_uint (Nat.to_uint n)).

(** ** Regular expressions

    The fragment the screen uses: classes, sequence, alternative, star.
    [regex_test] decides whether the whole string matches, which is what
    [RegExp.prototype.test] answers for a pattern anchored by [^] and [$]
    (no flags, so the anchors are the ends of the input). *)

Inductive regex : Type :=
| Void
| Eps
| Class (p : N -> bool)
| Seq (r1 r2 : regex)
| Alt (r1 r2 : regex)
| Star (r : regex).

Fixpoint nullable (r : regex) : bool :=
  match r with
  | Void => false
  | Eps => true
  | Class _ => false
  | Seq r1 r2 => nullable r1 && nullable r2
  | Alt r1 r2 => nullable r1 || nullable r2
  | Star _ => true
  end.

Fixpoint deriv (c : N) (r : regex) : regex :=
  match r with
  | Void => Void
  | Eps => Void
  | Class p => if p c then Eps else Void
  | Seq r1 r2 =>
      if nullable r1 then Alt (Seq (deriv c r1) r2) (deriv c r2)
      else Seq (deriv c r1) r2
  | Alt r1 r2 => Alt (deriv c r1) (deriv c r2)
  | Star r1 => Seq (deriv c r1) (Star r1)
  end.

Fixpoint regex_test (r : regex) (s : jsstring) : bool :=
  match s with
  | [] => nullable r
  | c :: s' => regex_test (deriv c r) s'
  end.

(** The quantifier [{0,n}]. *)
Fixpoint upto (n : nat) (r : regex) : regex :=
  match n with
  | O => Eps
  | S n' => Alt Eps (Seq r (upto n' r))
  end.

(** The words of a regular expression. *)
Inductive lang : regex -> jsstring -> Prop :=
| lang_eps : lang Eps []
| lang_class p c : p c = true -> lang (Class p) [c]
| lang_seq r1 r2 s1 s2 : lang r1 s1 -> lang r2 s2 -> lang (Seq r1 r2) (s1 ++ s2)
| lang_alt_l r1 r2 s : lang r1 s -> lang (Alt r1 r2) s
| lang_alt_r r1 r2 s : lang r2 s -> lang (Alt r1 r2) s
| lang_star_nil r : lang (Star r) []
| lang_star_app r s1 s2 : lang r s1 -> lang (Star r) s2 -> lang (Star r) (s1 ++ s2).

(** ** Image validation *)

(** The class [[A-Za-z0-9+/]]. *)
Definition base64Class (c : N) : bool :=
  ((65 <=? c) && (c <=? 90) || (97 <=? c) && (c <=? 122)
   || (48 <=? c) && (c <=? 57) || (c =? 43) || (c =? 47))%N.

(** The code unit of [=]. *)
Definition equalsSign : N := 61.

(** The code unit of the comma. *)
Definition comma : N := 44.

(** [/^[A-Za-z0-9+/]*={0,2}$/] *)
Definition base64Regex : regex :=
  Seq (Star (Class base64Class)) (upto 2 (Class (N.eqb equalsSign))).

(** The payload the validation goes on with: the text after the first comma
    of a [data:image/] URI, the input itself otherwise. *)
Definition cleanBase64 (base64Data : jsstring) : jsstring :=
  if startsWith base64Data (str "data:image/") then
    let commaIndex := indexOf base64Data comma in
    if negb (commaIndex =? -1) then substring base64Data (commaIndex + 1)
    else base64Data
  else base64Data.

(** [validateAndProcessImage]; [None] is the source's [null]. Nothing in
    the body throws, so the [catch] branch is never taken. *)
Definition validateAndProcessImage (base64Data : jsstring) : option jsstring :=
  if negb (nonEmpty base64Data) || negb (nonEmpty (trim base64Data)) then None
  else
    let cleanBase64 := cleanBase64 base64Data in
    if negb (regex_test base64Regex cleanBase64) then None
    else if (length cleanBase64 <? 1000)%nat then None
    else Some cleanBase64.

(** *** The contract of the validation, in the words of the specification *)

(** The base64 alphabet. *)
Definition base64_alphabet : jsstring :=
  str "ABCDEFGHIJKLMNOPQRSTUVWXYZabcdefghijklmnopqrstuvwxyz0123456789+/".

(** Only alphabet characters, then at most two [=]. *)
Definition base64_shaped (s : jsstring) : Prop :=
  exists body k,
    s = body ++ replicate k equalsSign /\
    Forall (fun c => c ∈ base64_alphabet) body /\ (k <= 2)%nat.

(** [c] is [p] without its data-URI prefix: the text after the first comma
    when [p] reads [data:image/...,...], and [p] itself otherwise. *)
Definition stripped (p c : jsstring) : Prop :=
  (exists mime, p = str "data:image/" ++ mime ++ comma :: c /\ comma ∉ mime)
  \/ ((forall mime rest, p <> str "data:image/" ++ mime ++ comma :: rest) /\ c = p).

(** ** Correctness of the matcher *)

Lemma nullable_lang r : nullable r = true <-> lang r [].
Proof.
  split.
  - induction r; simpl; intros Hn; try discriminate.
    + constructor.
    + apply andb_prop in Hn as [H1 H2].
      change (@nil N) with (@nil N ++ []). constructor; auto.
    + apply orb_prop in Hn as [H|H]; [apply lang_alt_l | apply lang_alt_r]; auto.
    + constructor.
  - intros H. remember [] as s eqn:Es. induction H; simpl; try discriminate; auto.
    + apply app_eq_nil in Es as [-> ->]. rewrite IHlang1, IHlang2; auto.
    + rewrite IHlang; auto.
    + rewrite IHlang. apply orb_true_r. auto.
Qed.

Lemma deriv_sound c r : forall s, lang (deriv c r) s -> lang r (c :: s).
Proof.
  induction r; simpl; intros s H.
  - inversion H.
  - inversion H.
  - destruct (p c) eqn:Hp; inversion H; subst. by constructor.
  - assert (Hseq : forall w, lang (Seq (deriv c r1) r2) w -> lang (Seq r1 r2) (c :: w)).
    { intros w Hw. inversion Hw; subst.
      change (c :: s1 ++ s2) with ((c :: s1) ++ s2). constructor; auto. }
    destruct (nullable r1) eqn:Hn; [|by apply Hseq].
    inversion H; subst; [by apply Hseq|].
    change (c :: s) with ([] ++ c :: s). constructor; [|by auto].
    by apply nullable_lang.
  - inversion H; subst; [apply lang_alt_l | apply lang_alt_r]; auto.
  - inversion H; subst.
    change (c :: s1 ++ s2) with ((c :: s1) ++ s2). constructor; auto.
Qed.

Lemma deriv_complete c r w :
  lang r w -> forall t, w = c :: t -> lang (deriv c r) t.
Proof.
  induction 1 as [ | p d Hp | r1 r2 s1 s2 H1 IH1 H2 IH2 | r1 r2 s H IH
                   | r1 r2 s H IH | r | r s1 s2 H1 IH1 H2 IH2 ];
    intros t Et; simpl; try discriminate.
  - injection Et as -> <-. rewrite Hp. constructor.
  - destruct s1 as [|d s1]; simpl in Et.
    + subst s2. apply nullable_lang in H1. rewrite H1.
      apply lang_alt_r. by apply IH2.
    + injection Et as -> <-.
      assert (Hd : lang (Seq (deriv c r1) r2) (s1 ++ s2)) by (constructor; auto).
      destruct (nullable r1); [by apply lang_alt_l | done].
  - apply lang_alt_l. auto.
  - apply lang_alt_r. auto.
  - destruct s1 as [|d s1]; simpl in Et.
    + by apply IH2.
    + injection Et as -> <-. constructor; auto.
Qed.

Lemma regex_test_lang s : forall r, regex_test r s = true <-> lang r s.
Proof.
  induction s as [|c s IH]; intros r; simpl.
  - apply nullable_lang.
  - rewrite IH. split; [apply deriv_sound|].
    intros H. by eapply deriv_complete.
Qed.

(** ** Correctness of the validation *)

Lemma lang_star_class p s :
  lang (Star (Class p)) s <-> Forall (fun c => p c = true) s.
Proof.
  split.
  - intros H. remember (Star (Class p)) as r eqn:Er.
    induction H as [ | | | | | | r s1 s2 H1 _ H2 IH2 ]; try discriminate.
    + constructor.
    + injection Er as ->. inversion H1; subst. constructor; auto.
  - induction 1 as [|c s Hc _ IH]; [constructor|].
    change (c :: s) with ([c] ++ s). constructor; [by constructor | done].
Qed.

Lemma lang_upto_unit n c s :
  lang (upto n (Class (N.eqb c))) s <->
  exists k, (k <= n)%nat /\ s = replicate k c.
Proof.
  revert s. induction n as [|n IH]; intros s; simpl.
  - split.
    + inversion 1. exists 0%nat. auto.
    + intros (k & Hk & ->). replace k with 0%nat by lia. constructor.
  - split.
    + inversion 1 as [ | | | ? ? ? He | ? ? ? Hs | | ]; subst.
      * inversion He. exists 0%nat. split; [lia | done].
      * inversion Hs as [ | | ? ? s1 s2 H1 H2 | | | | ]; subst.
        inversion H1 as [ | ? d Hd | | | | | ]; subst.
        apply N.eqb_eq in Hd as <-.
        apply IH in H2 as (k & Hk & ->).
        exists (S k). split; [lia | done].
    + intros ([|k] & Hk & ->); simpl.
      * apply lang_alt_l. constructor.
      * apply lang_alt_r. change (c :: replicate k c) with ([c] ++ replicate k c).
        constructor; [constructor; apply N.eqb_refl|].
        apply IH. exists k. split; [lia | done].
Qed.

Lemma base64Class_bounded c : base64Class c = true -> (c < 123)%N.
Proof.
  unfold base64Class.
  rewrite !orb_true_iff, !andb_true_iff, !N.leb_le, !N.eqb_eq. lia.
Qed.

Lemma base64_alphabet_bounded c : c ∈ base64_alphabet -> (c < 123)%N.
Proof.
  revert c. apply Forall_forall. vm_compute.
  repeat constructor.
Qed.

Lemma base64Class_below :
  forallb (fun n => Bool.eqb (base64Class (N.of_nat n))
                      (bool_decide (N.of_nat n ∈ base64_alphabet)))
    (seq 0 123) = true.
Proof. vm_compute. reflexivity. Qed.

Lemma base64Class_alphabet c : base64Class c = true <-> c ∈ base64_alphabet.
Proof.
  assert (Hlow : (c < 123)%N ->
            base64Class c = bool_decide (c ∈ base64_alphabet)).
  { intros Hc. pose proof base64Class_below as H.
    rewrite forallb_forall in H.
    specialize (H (N.to_nat c)). rewrite N2Nat.id in H.
    apply Bool.eqb_prop, H, in_seq. lia. }
  split; intros H.
  - pose proof (base64Class_bounded _ H) as Hc.
    rewrite (Hlow Hc) in H. by apply bool_decide_eq_true in H.
  - rewrite (Hlow (base64_alphabet_bounded _ H)). by apply bool_decide_eq_true.
Qed.

Lemma base64Regex_shaped s :
  regex_test base64Regex s = true <-> base64_shaped s.
Proof.
  rewrite regex_test_lang. unfold base64Regex, base64_shaped. split.
  - inversion 1 as [ | | ? ? body pad Hb Hp | | | | ]; subst.
    apply lang_star_class in Hb.
    apply (lang_upto_unit 2) in Hp as (k & Hk & ->).
    exists body, k. split; [done|]. split; [|done].
    eapply Forall_impl; [exact Hb|]. intros c. apply base64Class_alphabet.
  - intros (body & k & -> & Hb & Hk). constructor.
    + apply lang_star_class. eapply Forall_impl; [exact Hb|].
      intros c. apply base64Class_alphabet.
    + apply (lang_upto_unit 2). eauto.
Qed.

Lemma startsWith_spec s p : startsWith s p = true <-> exists rest, s = p ++ rest.
Proof.
  revert s. induction p as [|c p IH]; intros s; simpl.
  - split; [intros _; by exists s | done].
  - destruct s as [|d s].
    + split; [done | by intros (rest & ?)].
    + rewrite andb_true_iff, N.eqb_eq, IH. split.
      * intros (-> & rest & ->). eauto.
      * intros (rest & Hs). injection Hs as -> ->. eauto.
Qed.

Lemma indexOf_range s c : indexOf s c = -1 \/ 0 <= indexOf s c.
Proof.
  induction s as [|d s IH]; simpl; [by left|].
  destruct (d =? c)%N; [right; lia|].
  destruct (Z.eqb_spec (indexOf s c) (-1)); [by left | right; lia].
Qed.

Lemma indexOf_absent s c : c ∉ s -> indexOf s c = -1.
Proof.
  induction s as [|d s IH]; simpl; [done|].
  rewrite not_elem_of_cons. intros [Hd Hs].
  destruct (N.eqb_spec d c); [congruence|]. by rewrite IH.
Qed.

Lemma indexOf_first pre c rest :
  c ∉ pre -> indexOf (pre ++ c :: rest) c = Z.of_nat (length pre).
Proof.
  induction pre as [|d pre IH]; simpl.
  - intros _. by rewrite N.eqb_refl.
  - rewrite not_elem_of_cons. intros [Hd Hpre].
    destruct (N.eqb_spec d c); [congruence|]. rewrite (IH Hpre).
    destruct (Z.eqb_spec (Z.of_nat (length pre)) (-1)); lia.
Qed.

Lemma comma_not_in_scheme : comma ∉ str "data:image/".
Proof. intros H. by repeat (apply elem_of_cons in H as [H|H]; [done|]); inversion H. Qed.

(** The code strips exactly as the contract says. *)
Lemma cleanBase64_stripped p c : stripped p c <-> c = cleanBase64 p.
Proof.
  assert (Hsplit : forall mime rest,
            p = str "data:image/" ++ mime ++ comma :: rest -> comma ∉ mime ->
            cleanBase64 p = rest).
  { intros mime rest Hp Hm. unfold cleanBase64.
    replace (startsWith p (str "data:image/")) with true
      by (symmetry; apply startsWith_spec; eauto).
    cbv zeta. rewrite Hp, (app_assoc _ mime), indexOf_first.
    2:{ rewrite elem_of_app. intros [H|H]; [by apply comma_not_in_scheme | done]. }
    destruct (Z.eqb_spec (Z.of_nat (length (str "data:image/" ++ mime))) (-1));
      [lia|]. simpl negb. cbv iota. unfold substring.
    replace (Z.to_nat (Z.of_nat (length (str "data:image/" ++ mime)) + 1))
      with (length (str "data:image/" ++ mime) + 1)%nat by lia.
    by rewrite drop_app_add. }
  split.
  - intros [(mime & Hp & Hm) | [Hno ->]]; [symmetry; eauto|].
    unfold cleanBase64.
    destruct (startsWith p (str "data:image/")) eqn:Hs; [|done].
    destruct (Z.eqb_spec (indexOf p comma) (-1)) as [|Hi]; [done|]. exfalso.
    apply startsWith_spec in Hs as (rest & Hp).
    assert (Hin : comma ∈ rest).
    { destruct (decide (comma ∈ p)) as [H|H].
      - rewrite Hp, elem_of_app in H.
        destruct H as [H|H]; [by apply comma_not_in_scheme in H | done].
      - by apply indexOf_absent in H. }
    apply list_elem_of_split_l in Hin as (mime & tl & -> & _).
    by eapply Hno.
  - intros ->.
    destruct (startsWith p (str "data:image/")) eqn:Hs.
    + apply startsWith_spec in Hs as (rest & Hp).
      destruct (decide (comma ∈ rest)) as [Hin|Hout].
      * apply list_elem_of_split_l in Hin as (mime & tl & -> & Hm).
        left. exists mime. split; [|done]. by rewrite (Hsplit mime tl).
      * right. assert (Hp' : comma ∉ p).
        { rewrite Hp, elem_of_app.
          intros [H|H]; [by apply comma_not_in_scheme in H | done]. }
        split.
        -- intros mime tl E. apply Hp'. rewrite E, !elem_of_app, elem_of_cons. auto.
        -- unfold cleanBase64. by rewrite indexOf_absent, Tauto.if_same.
    + right. split.
      * intros mime tl E.
        assert (startsWith p (str "data:image/") = true)
          by (apply startsWith_spec; eauto). congruence.
      * unfold cleanBase64. by rewrite Hs.
Qed.

Lemma dropWhile_nil {A} (f : A -> bool) l :
  dropWhile f l = [] -> Forall (fun x => f x = true) l.
Proof.
  induction l as [|x l IH]; simpl; [constructor|].
  destruct (f x) eqn:Hx; [|done]. constructor; auto.
Qed.

Lemma dropWhile_Forall {A} (f : A -> bool) l :
  Forall (fun x => f x = true) (dropWhile f l) -> Forall (fun x => f x = true) l.
Proof.
  induction l as [|x l IH]; simpl; [done|].
  destruct (f x) eqn:Hx; [|done]. constructor; auto.
Qed.

(** A string that trims to the empty string is made of white space. *)
Lemma trim_empty s : trim s = [] -> Forall (fun c => isWhiteSpace c = true) s.
Proof.
  unfold trim. intros H.
  apply (f_equal reverse) in H. rewrite reverse_involutive, reverse_nil in H.
  apply dropWhile_nil in H. rewrite Forall_reverse in H.
  by apply dropWhile_Forall.
Qed.

Lemma whiteSpace_not_base64 c :
  isWhiteSpace c = true -> base64Class c = false /\ c <> equalsSign.
Proof.
  unfold isWhiteSpace, base64Class, equalsSign.
  rewrite !orb_true_iff, !andb_true_iff, !N.leb_le, !N.eqb_eq. intros H.
  split; [|lia]. apply not_true_is_false.
  rewrite !orb_true_iff, !andb_true_iff, !N.leb_le, !N.eqb_eq. lia.
Qed.

(** What the first test of the validation rejects, the later tests would
    reject as well. *)
Lemma blank_rejected p :
  negb (nonEmpty p) || negb (nonEmpty (trim p)) = true ->
  ~ (base64_shaped (cleanBase64 p) /\ (1000 <= length (cleanBase64 p))%nat).
Proof.
  intros Hb [Hs Hl].
  assert (Hws : Forall (fun c => isWhiteSpace c = true) p).
  { destruct p as [|c p]; [constructor|]. simpl in Hb.
    destruct (trim (c :: p)) eqn:Ht; [by apply trim_empty | done]. }
  destruct p as [|c p]; [simpl in Hl; lia|].
  apply Forall_cons in Hws as [Hc _].
  apply whiteSpace_not_base64 in Hc as [Hc1 Hc2].
  assert (Hclean : cleanBase64 (c :: p) = c :: p).
  { unfold cleanBase64.
    destruct (startsWith (c :: p) (str "data:image/")) eqn:Hsw; [|done].
    apply startsWith_spec in Hsw as (rest & E). injection E as -> _.
    discriminate Hc1. }
  rewrite Hclean in Hs. destruct Hs as (body & k & E & Hbody & _).
  destruct body as [|d body].
  - destruct k; [done|]. injection E as -> _. done.
  - injection E as -> _. apply Forall_cons in Hbody as [Hd _].
    apply base64Class_alphabet in Hd. congruence.
Qed.

(** C1. [validateAndProcessImage] returns a payload [c] for the raw payload
    [p] exactly when [c] is [p] stripped of its data-URI prefix (the text
    after the first comma, when [p] is a [data:image/] URI with a comma),
    [c] consists of base64 alphabet characters followed by at most two [=],
    and [c] has at least 1000 code units; it returns [null] exactly when the
    stripped payload fails one of the two conditions. *)
Theorem validateAndProcessImage_spec (p : jsstring) :
  (forall c, validateAndProcessImage p = Some c <->
             stripped p c /\ base64_shaped c /\ (1000 <= length c)%nat) /\
  (validateAndProcessImage p = None <->
   forall c, stripped p c -> ~ (base64_shaped c /\ (1000 <= length c)%nat)).
Proof.
  assert (Hsome : forall c, validateAndProcessImage p = Some c <->
            stripped p c /\ base64_shaped c /\ (1000 <= length c)%nat).
  { intros c. rewrite cleanBase64_stripped. unfold validateAndProcessImage.
    destruct (negb (nonEmpty p) || negb (nonEmpty (trim p))) eqn:Hb.
    - split; [done|]. intros (-> & Hs & Hl). by destruct (blank_rejected p Hb).
    - cbv zeta. destruct (regex_test base64Regex (cleanBase64 p)) eqn:Hr; simpl.
      + apply base64Regex_shaped in Hr.
        destruct (Nat.ltb_spec (length (cleanBase64 p)) 1000).
        * split; [done|]. intros (-> & _ & Hl). lia.
        * split; [intros [= <-]; auto | by intros (-> & _)].
      + split; [done|]. intros (-> & Hs & _).
        apply base64Regex_shaped in Hs. congruence. }
  split; [done|]. split.
  - intros Hn c Hc Hok. assert (validateAndProcessImage p = Some c) by (apply Hsome; tauto).
    congruence.
  - intros Hno. destruct (validateAndProcessImage p) as [c|] eqn:Hv; [|done].
    destruct (Hsome c) as [H _]. destruct (H eq_refl) as (Hc & Hok).
    by destruct (Hno c Hc).
Qed.

(** ** Values of the analysis response

    The response is typed [any] in the source; its values are JSON values,
    and [JUndefined] is what reading an absent property gives. *)

#[warnings="-register-all"]
Inductive jsval : Type :=
| JUndefined
| JNull
| JBool (b : bool)
| JNum (x : float)
| JStr (s : jsstring)
| JArr (l : list jsval)
| JObj (o : gmap string jsval).

(** ToBoolean: [undefined], [null], [false], [0], [-0], [NaN] and the empty
    string are falsy, every other value is truthy. *)
Definition truthy (v : jsval) : bool :=
  match v with
  | JUndefined | JNull => false
  | JBool b => b
  | JNum x => negb (PrimFloat.eqb x 0%float || PrimFloat.is_nan x)
  | JStr s => nonEmpty s
  | JArr _ | JObj _ => true
  end.

(** The operator [||]. *)
Definition jsor (a b : jsval) : jsval := if truthy a then a else b.

Infix "|||" := jsor (at level 50, left associativity).

(** The number [0]. *)
Definition zero : jsval := JNum 0%float.

(** Modelled from the spec: the entries of [analysis.ingredients], whose
    shape the meal slice and the analysis service decide, are plain name
    strings or structured objects (section 4.1, "Ingredient normalization
    rule"); the fields of an object hold any value. *)
Inductive RawIngredient : Type :=
| RawName (s : jsstring)
| RawObject (o : gmap string jsval).

(** [typeof ing === 'string'] *)
Definition isString (ing : RawIngredient) : bool :=
  match ing with RawName _ => true | RawObject _ => false end.

(** The entry as a value. *)
Definition valueOf (ing : RawIngredient) : jsval :=
  match ing with RawName s => JStr s | RawObject o => JObj o end.

(** [ing.key]: the property of an object, [undefined] when it is absent (a
    string has none of the properties read here). *)
Definition get (ing : RawIngredient) (key : string) : jsval :=
  match ing with
  | RawName _ => JUndefined
  | RawObject o => default JUndefined (o !! key)
  end.

(** [interface Ingredient]. The normalization copies values of type [any]
    into the fields, so each field holds a [jsval]. *)
Record Ingredient : Type := {
  id : jsstring;
  name : jsval;
  calories : jsval;
  protein_g : jsval;
  carbs_g : jsval;
  fats_g : jsval;
  fiber_g : jsval;
  sugar_g : jsval;
  sodium_mg : jsval;
}.

(** ** Ingredient normalization *)

(** The callback of [(pendingMeal.analysis.ingredients || []).map(...)]. *)
Definition formatIngredient (index : nat) (ing : RawIngredient) : Ingredient :=
  {| id := str "ing_" ++ decimal index;
     name := if isString ing then valueOf ing
             else get ing "name" ||| JStr (str "Ingredient " ++ decimal (index + 1));
     calories := if isString ing then zero else get ing "calories" ||| zero;
     protein_g := if isString ing then zero
                  else get ing "protein_g" ||| get ing "protein" ||| zero;
     carbs_g := if isString ing then zero
                else get ing "carbs_g" ||| get ing "carbs" ||| zero;
     fats_g := if isString ing then zero
               else get ing "fats_g" ||| get ing "fat" ||| zero;
     fiber_g := if isString ing then zero
                else get ing "fiber_g" ||| get ing "fiber" ||| zero;
     sugar_g := if isString ing then zero
                else get ing "sugar_g" ||| get ing "sugar" ||| zero;
     sodium_mg := if isString ing then zero
                  else get ing "sodium_mg" ||| get ing "sodium" ||| zero |}.

(** [formattedIngredients] *)
Definition formattedIngredients (raw : list RawIngredient) : list Ingredient :=
  imap formatIngredient raw.

(** A normalized ingredient read back as an entry of a response: the object
    with the nine properties of [Ingredient]. *)
Definition asEntry (ing : Ingredient) : RawIngredient :=
  RawObject
    (<["id" := JStr (id ing)]> (<["name" := name ing]>
    (<["calories" := calories ing]> (<["protein_g" := protein_g ing]>
    (<["carbs_g" := carbs_g ing]> (<["fats_g" := fats_g ing]>
    (<["fiber_g" := fiber_g ing]> (<["sugar_g" := sugar_g ing]>
    (<["sodium_mg" := sodium_mg ing]> ∅))))))))).

(** *** The normalization rule, in the words of the specification *)

(** The numeric fields of an [Ingredient]. *)
Inductive Nutrient : Type :=
| Calories | Protein | Carbs | Fats | Fiber | Sugar | Sodium.

Definition nutrient (n : Nutrient) (ing : Ingredient) : jsval :=
  match n with
  | Calories => calories ing
  | Protein => protein_g ing
  | Carbs => carbs_g ing
  | Fats => fats_g ing
  | Fiber => fiber_g ing
  | Sugar => sugar_g ing
  | Sodium => sodium_mg ing
  end.

(** The keys under which a response may carry a nutrient, in the order in
    which they are tried. *)
Definition synonyms (n : Nutrient) : list string :=
  match n with
  | Calories => ["calories"]
  | Protein => ["protein_g"; "protein"]
  | Carbs => ["carbs_g"; "carbs"]
  | Fats => ["fats_g"; "fat"]
  | Fiber => ["fiber_g"; "fiber"]
  | Sugar => ["sugar_g"; "sugar"]
  | Sodium => ["sodium_mg"; "sodium"]
  end.

(** The first populated (truthy) value of a list of candidates. *)
Fixpoint firstPopulated (candidates : list jsval) : option jsval :=
  match candidates with
  | [] => None
  | v :: rest => if truthy v then Some v else firstPopulated rest
  end.

Definition isNumber (v : jsval) : bool :=
  match v with JNum _ => true | _ => false end.

(** The value the rule gives a nutrient: the first populated value among
    its synonym keys, [0] when there is none. *)
Definition populatedOrZero (ing : RawIngredient) (n : Nutrient) : jsval :=
  default zero (firstPopulated (get ing <$> synonyms n)).

(** The name the rule gives entry [index]: the string itself, or the [name]
    of the object when it is populated, or a name made from the position. *)
Definition nameByRule (index : nat) (ing : RawIngredient) : jsval :=
  match ing with
  | RawName s => JStr s
  | RawObject _ =>
      default (JStr (str "Ingredient " ++ decimal (index + 1)))
        (firstPopulated [get ing "name"])
  end.

(** The response of the scenario of the specification:
    [["Rice", {name: "Egg", protein: 6}]]. *)
Definition riceAndEgg : list RawIngredient :=
  [ RawName (str "Rice");
    RawObject (<["name" := JStr (str "Egg")]> (<["protein" := JNum 6%float]> ∅)) ].

(** ** Properties of the normalization *)

Lemma jsor_one a d : a ||| d = default d (firstPopulated [a]).
Proof. unfold jsor. simpl. by destruct (truthy a). Qed.

Lemma jsor_two a b d : a ||| b ||| d = default d (firstPopulated [a; b]).
Proof.
  unfold jsor. simpl. destruct (truthy a) eqn:Ha; [by rewrite Ha|].
  by destruct (truthy b).
Qed.

Lemma formatIngredient_nutrient index ing n :
  nutrient n (formatIngredient index ing) = populatedOrZero ing n.
Proof.
  unfold populatedOrZero.
  destruct ing as [s|o]; destruct n; simpl nutrient; cbn [isString];
    try reflexivity; first [apply jsor_one | apply jsor_two].
Qed.

Lemma formatIngredient_name index ing :
  name (formatIngredient index ing) = nameByRule index ing.
Proof.
  destruct ing as [s|o]; simpl; [done|]. apply jsor_one.
Qed.

(** C2. Normalization gives one Ingredient per entry of the response, at
    the position of the entry; the Ingredient at position [index] has the
    identifier [ing_<index>], and each of its nutrients is the first
    populated (truthy) value among the synonym keys of the nutrient, tried
    in order ([protein_g] before [protein], ...), and [0] when none is. *)
Theorem formattedIngredients_rule (raw : list RawIngredient) :
  length (formattedIngredients raw) = length raw /\
  forall index ing, raw !! index = Some ing ->
    exists out, formattedIngredients raw !! index = Some out /\
      id out = str "ing_" ++ decimal index /\
      name out = nameByRule index ing /\
      forall n, nutrient n out = populatedOrZero ing n.
Proof.
  unfold formattedIngredients. split; [apply length_imap|].
  intros index ing Hraw. exists (formatIngredient index ing).
  rewrite list_lookup_imap, Hraw. split; [done|]. split; [done|].
  split; [apply formatIngredient_name|].
  intros n. apply formatIngredient_nutrient.
Qed.

(** The scenario of the specification. *)
Example formattedIngredients_riceAndEgg :
  formattedIngredients riceAndEgg =
  [ {| id := str "ing_0"; name := JStr (str "Rice"); calories := zero;
       protein_g := zero; carbs_g := zero; fats_g := zero; fiber_g := zero;
       sugar_g := zero; sodium_mg := zero |};
    {| id := str "ing_1"; name := JStr (str "Egg"); calories := zero;
       protein_g := JNum 6%float; carbs_g := zero; fats_g := zero;
       fiber_g := zero; sugar_g := zero; sodium_mg := zero |} ].
Proof. vm_compute. reflexivity. Qed.

(** *** Defaults *)

(** An object whose [calories] is the string ["abc"]. *)
Definition abcCalories : RawIngredient :=
  RawObject (<["name" := JStr (str "Egg")]> (<["calories" := JStr (str "abc")]> ∅)).

(** A value that is not a number travels through [||] when it is truthy:
    no synonym key of [calories] holds a number in [abcCalories], and the
    normalized [calories] is the string, not [0]. *)
Lemma non_numeric_calories_propagated :
  (forall key, key ∈ synonyms Calories -> isNumber (get abcCalories key) = false) /\
  nutrient Calories (formatIngredient 0 abcCalories) = JStr (str "abc") /\
  nutrient Calories (formatIngredient 0 abcCalories) <> zero /\
  isNumber (nutrient Calories (formatIngredient 0 abcCalories)) = false.
Proof.
  split.
  - intros key Hk. apply list_elem_of_singleton in Hk as ->. reflexivity.
  - split; [reflexivity|]. split; [|reflexivity]. discriminate.
Qed.

Lemma firstPopulated_none vs :
  Forall (fun v => truthy v = false) vs -> firstPopulated vs = None.
Proof. induction 1 as [|v vs Hv _ IH]; simpl; [done|]. by rewrite Hv. Qed.

Lemma firstPopulated_some vs v :
  firstPopulated vs = Some v -> v ∈ vs /\ truthy v = true.
Proof.
  induction vs as [|w vs IH]; simpl; [done|].
  destruct (truthy w) eqn:Hw.
  - intros [= <-]. split; [left | done].
  - intros H. destruct (IH H). split; [by right | done].
Qed.

(** C3 (amended). A numeric field of the normalized Ingredient is [0]
    whenever the entry is a plain string, and whenever the input field is
    absent or falsy ([undefined], [null], [false], [0], [NaN], the empty
    string) under every synonym key; a falsy value is never propagated: a
    field that is not [0] is a truthy value the entry holds under one of
    the synonym keys. *)
Theorem formatIngredient_defaults (index : nat) (ing : RawIngredient) (n : Nutrient) :
  (isString ing = true \/
   (forall key, key ∈ synonyms n -> truthy (get ing key) = false) ->
   nutrient n (formatIngredient index ing) = zero) /\
  (nutrient n (formatIngredient index ing) = zero \/
   exists key, key ∈ synonyms n /\ truthy (get ing key) = true /\
     nutrient n (formatIngredient index ing) = get ing key).
Proof.
  rewrite formatIngredient_nutrient. unfold populatedOrZero. split.
  - intros H. rewrite firstPopulated_none; [done|].
    apply Forall_fmap, Forall_forall. intros key Hk. simpl.
    destruct H as [H|H]; [by destruct ing | auto].
  - destruct (firstPopulated (get ing <$> synonyms n)) as [v|] eqn:Hv; [|by left].
    right. apply firstPopulated_some in Hv as [Hin Hv].
    apply list_elem_of_fmap in Hin as (key & -> & Hk). eauto.
Qed.

(** Falsy values that are not numbers are replaced by [0]. *)
Example falsy_values_default :
  let ing :=
    RawObject (<["calories" := JNull]> (<["protein_g" := JStr []]>
              (<["protein" := JBool false]> (<["carbs" := JNum nan]> ∅)))) in
  nutrient Calories (formatIngredient 3 ing) = zero /\
  nutrient Protein (formatIngredient 3 ing) = zero /\
  nutrient Carbs (formatIngredient 3 ing) = zero /\
  name (formatIngredient 3 ing) = JStr (str "Ingredient 4").
Proof. vm_compute. repeat split; reflexivity. Qed.

(** *** Normalizing twice *)

(** An entry that is the empty string keeps the empty name the first time
    and gets a name made from its position the second time. *)
Lemma empty_name_renamed :
  formattedIngredients (asEntry <$> formattedIngredients [RawName []])
  <> formattedIngredients [RawName []].
Proof. vm_compute. discriminate. Qed.

Lemma truthy_jsor_r a b : truthy b = true -> truthy (a ||| b) = true.
Proof. unfold jsor. intros Hb. by destruct (truthy a) eqn:Ha. Qed.

Lemma jsor_truthy a b : truthy a = true -> a ||| b = a.
Proof. unfold jsor. by intros ->. Qed.

(** A value defaulted to [0] is left alone by a second defaulting, also
    when a second synonym key, absent from the normalized object, is tried
    in between. *)
Lemma jsor_zero_again a :
  (a ||| zero) ||| zero = a ||| zero /\
  (a ||| zero) ||| JUndefined ||| zero = a ||| zero.
Proof. unfold jsor. by destruct (truthy a) eqn:Ha; simpl; rewrite ?Ha. Qed.

Lemma get_asEntry_own out :
  get (asEntry out) "name" = name out /\
  get (asEntry out) "calories" = calories out /\
  get (asEntry out) "protein_g" = protein_g out /\
  get (asEntry out) "carbs_g" = carbs_g out /\
  get (asEntry out) "fats_g" = fats_g out /\
  get (asEntry out) "fiber_g" = fiber_g out /\
  get (asEntry out) "sugar_g" = sugar_g out /\
  get (asEntry out) "sodium_mg" = sodium_mg out.
Proof. unfold asEntry, get. repeat split; by simplify_map_eq. Qed.

Lemma get_asEntry_other out :
  get (asEntry out) "protein" = JUndefined /\
  get (asEntry out) "carbs" = JUndefined /\
  get (asEntry out) "fat" = JUndefined /\
  get (asEntry out) "fiber" = JUndefined /\
  get (asEntry out) "sugar" = JUndefined /\
  get (asEntry out) "sodium" = JUndefined.
Proof. unfold asEntry, get. repeat split; by simplify_map_eq. Qed.

Lemma formatIngredient_again index ing :
  ing <> RawName [] ->
  formatIngredient index (asEntry (formatIngredient index ing)) =
  formatIngredient index ing.
Proof.
  intros Hne.
  destruct (get_asEntry_own (formatIngredient index ing))
    as (Hname & Hcal & Hpro & Hcarb & Hfat & Hfib & Hsug & Hsod).
  destruct (get_asEntry_other (formatIngredient index ing))
    as (Hpro' & Hcarb' & Hfat' & Hfib' & Hsug' & Hsod').
  unfold formatIngredient at 1. cbn [isString asEntry].
  rewrite Hname, Hcal, Hpro, Hcarb, Hfat, Hfib, Hsug, Hsod,
    Hpro', Hcarb', Hfat', Hfib', Hsug', Hsod'.
  assert (Hn : truthy (name (formatIngredient index ing)) = true).
  { destruct ing as [[|c s]|o]; simpl; [done | done |].
    by apply truthy_jsor_r. }
  rewrite (jsor_truthy _ _ Hn).
  destruct ing as [s|o]; unfold formatIngredient;
    cbn [isString id name calories protein_g carbs_g fats_g fiber_g sugar_g
         sodium_mg]; [reflexivity|].
  f_equal; apply jsor_zero_again.
Qed.

(** C8 (amended). Normalizing the normalized list again gives the same
    list, field by field, provided no entry of the response is the empty
    string. *)
Theorem formattedIngredients_idempotent (raw : list RawIngredient) :
  Forall (fun ing => ing <> RawName []) raw ->
  formattedIngredients (asEntry <$> formattedIngredients raw) =
  formattedIngredients raw.
Proof.
  intros Hraw. unfold formattedIngredients. apply list_eq. intros i.
  rewrite !list_lookup_imap, list_lookup_fmap, list_lookup_imap.
  destruct (raw !! i) as [ing|] eqn:Hi; simpl; [|done].
  f_equal. apply formatIngredient_again.
  rewrite Forall_forall in Hraw. apply Hraw. by eapply list_elem_of_lookup_2.
Qed.

Lemma formattedIngredients_idempotent_riceAndEgg :
  formattedIngredients (asEntry <$> formattedIngredients riceAndEgg) =
  formattedIngredients riceAndEgg.
Proof.
  apply (formattedIngredients_idempotent riceAndEgg).
  repeat constructor; discriminate.
Defined.

(** ** The state of the screen *)

(** Modelled from the spec: the analysis held by the pending meal, as the
    meal slice (not part of this file) stores it: a name, a description and
    the list of ingredient entries, each of which may be missing. *)
Record Analysis : Type := {
  meal_name : option jsstring;
  description : option jsstring;
  analysis_ingredients : option (list RawIngredient);
}.

(** Modelled from the spec: the pending meal of the meal slice, the image
    payload and its analysis. *)
Record PendingMeal : Type := {
  image_base_64 : jsstring;
  analysis : option Analysis;
}.

(** How an awaited thunk settles. *)
Inductive Settled (A : Type) : Type :=
| Fulfilled (payload : A)
| Rejected.

Arguments Fulfilled {A} payload.
Arguments Rejected {A}.

(** What the screen dispatches to the store, with the way it settled:
    [analyzeMeal({imageBase64, updateText, language})], [postMeal()],
    [updateMeal({meal_id, updateText})] and [clearPendingMeal()]. The
    payload of a fulfilled [postMeal] is what the screen reads of it,
    [result.payload?.meal_id?.toString()]. *)
Inductive Dispatched : Type :=
| AnalyzeMeal (imageBase64 : jsstring) (updateText : option jsstring)
    (language : jsstring) (result : Settled Analysis)
| PostMeal (result : Settled (option jsstring))
| UpdateMeal (meal_id : jsstring) (updateText : jsstring) (result : Settled unit)
| ClearPendingMeal.

(** The pending meal and the posting flag of the meal slice, the [useState]
    cells of the screen, the language of [i18n], the content of
    AsyncStorage, and what the screen has shown and dispatched so far
    (latest first). *)
Record State : Type := {
  pendingMeal : option PendingMeal;
  isPosting : bool;
  showEditModal : bool;
  editText : jsstring;
  mealName : jsstring;
  mealDescription : jsstring;
  ingredients : list Ingredient;
  postedMealId : option jsstring;
  originalImageBase64 : jsstring;
  showIngredientEdit : bool;
  editingIngredient : option Ingredient;
  language : jsstring;
  storage : gmap string jsstring;
  alerts : list (string * string);
  dispatched : list Dispatched;
}.

Definition setPendingMeal (v : option PendingMeal) (st : State) : State :=
  {| pendingMeal := v; isPosting := isPosting st;
     showEditModal := showEditModal st; editText := editText st;
     mealName := mealName st; mealDescription := mealDescription st;
     ingredients := ingredients st; postedMealId := postedMealId st;
     originalImageBase64 := originalImageBase64 st;
     showIngredientEdit := showIngredientEdit st;
     editingIngredient := editingIngredient st; language := language st;
     storage := storage st; alerts := alerts st;
     dispatched := dispatched st |}.

Definition setShowEditModal (v : bool) (st : State) : State :=
  {| pendingMeal := pendingMeal st; isPosting := isPosting st;
     showEditModal := v; editText := editText st; mealName := mealName st;
     mealDescription := mealDescription st; ingredients := ingredients st;
     postedMealId := postedMealId st;
     originalImageBase64 := originalImageBase64 st;
     showIngredientEdit := showIngredientEdit st;
     editingIngredient := editingIngredient st; language := language st;
     storage := storage st; alerts := alerts st;
     dispatched := dispatched st |}.

Definition setEditText (v : jsstring) (st : State) : State :=
  {| pendingMeal := pendingMeal st; isPosting := isPosting st;
     showEditModal := showEditModal st; editText := v;
     mealName := mealName st; mealDescription := mealDescription st;
     ingredients := ingredients st; postedMealId := postedMealId st;
     originalImageBase64 := originalImageBase64 st;
     showIngredientEdit := showIngredientEdit st;
     editingIngredient := editingIngredient st; language := language st;
     storage := storage st; alerts := alerts st;
     dispatched := dispatched st |}.

Definition setMealName (v : jsstring) (st : State) : State :=
  {| pendingMeal := pendingMeal st; isPosting := isPosting st;
     showEditModal := showEditModal st; editText := editText st;
     mealName := v; mealDescription := mealDescription st;
     ingredients := ingredients st; postedMealId := postedMealId st;
     originalImageBase64 := originalImageBase64 st;
     showIngredientEdit := showIngredientEdit st;
     editingIngredient := editingIngredient st; language := language st;
     storage := storage st; alerts := alerts st;
     dispatched := dispatched st |}.

Definition setMealDescription (v : jsstring) (st : State) : State :=
  {| pendingMeal := pendingMeal st; isPosting := isPosting st;
     showEditModal := showEditModal st; editText := editText st;
     mealName := mealName st; mealDescription := v;
     ingredients := ingredients st; postedMealId := postedMealId st;
     originalImageBase64 := originalImageBase64 st;
     showIngredientEdit := showIngredientEdit st;
     editingIngredient := editingIngredient st; language := language st;
     storage := storage st; alerts := alerts st;
     dispatched := dispatched st |}.

Definition setIngredients (v : list Ingredient) (st : State) : State :=
  {| pendingMeal := pendingMeal st; isPosting := isPosting st;
     showEditModal := showEditModal st; editText := editText st;
     mealName := mealName st; mealDescription := mealDescription st;
     ingredients := v; postedMealId := postedMealId st;
     originalImageBase64 := originalImageBase64 st;
     showIngredientEdit := showIngredientEdit st;
     editingIngredient := editingIngredient st; language := language st;
     storage := storage st; alerts := alerts st;
     dispatched := dispatched st |}.

Definition setPostedMealId (v : option jsstring) (st : State) : State :=
  {| pendingMeal := pendingMeal st; isPosting := isPosting st;
     showEditModal := showEditModal st; editText := editText st;
     mealName := mealName st; mealDescription := mealDescription st;
     ingredients := ingredients st; postedMealId := v;
     originalImageBase64 := originalImageBase64 st;
     showIngredientEdit := showIngredientEdit st;
     editingIngredient := editingIngredient st; language := language st;
     storage := storage st; alerts := alerts st;
     dispatched := dispatched st |}.

Definition setOriginalImageBase64 (v : jsstring) (st : State) : State :=
  {| pendingMeal := pendingMeal st; isPosting := isPosting st;
     showEditModal := showEditModal st; editText := editText st;
     mealName := mealName st; mealDescription := mealDescription st;
     ingredients := ingredients st; postedMealId := postedMealId st;
     originalImageBase64 := v; showIngredientEdit := showIngredientEdit st;
     editingIngredient := editingIngredient st; language := language st;
     storage := storage st; alerts := alerts st;
     dispatched := dispatched st |}.

Definition setShowIngredientEdit (v : bool) (st : State) : State :=
  {| pendingMeal := pendingMeal st; isPosting := isPosting st;
     showEditModal := showEditModal st; editText := editText st;
     mealName := mealName st; mealDescription := mealDescription st;
     ingredients := ingredients st; postedMealId := postedMealId st;
     originalImageBase64 := originalImageBase64 st; showIngredientEdit := v;
     editingIngredient := editingIngredient st; language := language st;
     storage := storage st; alerts := alerts st;
     dispatched := dispatched st |}.

Definition setEditingIngredient (v : option Ingredient) (st : State) : State :=
  {| pendingMeal := pendingMeal st; isPosting := isPosting st;
     showEditModal := showEditModal st; editText := editText st;
     mealName := mealName st; mealDescription := mealDescription st;
     ingredients := ingredients st; postedMealId := postedMealId st;
     originalImageBase64 := originalImageBase64 st;
     showIngredientEdit := showIngredientEdit st; editingIngredient := v;
     language := language st; storage := storage st; alerts := alerts st;
     dispatched := dispatched st |}.

Definition setStorage (v : gmap string jsstring) (st : State) : State :=
  {| pendingMeal := pendingMeal st; isPosting := isPosting st;
     showEditModal := showEditModal st; editText := editText st;
     mealName := mealName st; mealDescription := mealDescription st;
     ingredients := ingredients st; postedMealId := postedMealId st;
     originalImageBase64 := originalImageBase64 st;
     showIngredientEdit := showIngredientEdit st;
     editingIngredient := editingIngredient st; language := language st;
     storage := v; alerts := alerts st; dispatched := dispatched st |}.

Definition setAlerts (v : list (string * string)) (st : State) : State :=
  {| pendingMeal := pendingMeal st; isPosting := isPosting st;
     showEditModal := showEditModal st; editText := editText st;
     mealName := mealName st; mealDescription := mealDescription st;
     ingredients := ingredients st; postedMealId := postedMealId st;
     originalImageBase64 := originalImageBase64 st;
     showIngredientEdit := showIngredientEdit st;
     editingIngredient := editingIngredient st; language := language st;
     storage := storage st; alerts := v; dispatched := dispatched st |}.

Definition setDispatched (v : list Dispatched) (st : State) : State :=
  {| pendingMeal := pendingMeal st; isPosting := isPosting st;
     showEditModal := showEditModal st; editText := editText st;
     mealName := mealName st; mealDescription := mealDescription st;
     ingredients := ingredients st; postedMealId := postedMealId st;
     originalImageBase64 := originalImageBase64 st;
     showIngredientEdit := showIngredientEdit st;
     editingIngredient := editingIngredient st; language := language st;
     storage := storage st; alerts := alerts st; dispatched := v |}.
(** The screen as it mounts on a first launch: nothing pending, nothing
    stored. *)
Definition initialState (lang : jsstring) : State :=
  {| pendingMeal := None; isPosting := false; showEditModal := false;
     editText := []; mealName := []; mealDescription := [];
     ingredients := []; postedMealId := None; originalImageBase64 := [];
     showIngredientEdit := false; editingIngredient := None;
     language := lang; storage := ∅; alerts := []; dispatched := [] |}.

(** [Alert.alert(title, message)] *)
Definition alert (title message : string) (st : State) : State :=
  setAlerts ((title, message) :: alerts st) st.

(** [dispatch(...)], recorded with the way the thunk settled. *)
Definition dispatch (d : Dispatched) (st : State) : State :=
  setDispatched (d :: dispatched st) st.

(** ** The durable record of the posted meal

    AsyncStorage answers with a promise; [ok] tells whether it resolves.
    A rejection is caught and logged by the screen, and nothing else
    happens. *)

(** [saveMealId] *)
Definition saveMealId (ok : bool) (mealId : jsstring) (st : State) : State :=
  if ok then setStorage (<["postedMealId" := mealId]> (storage st)) st else st.

(** [clearMealId] *)
Definition clearMealId (ok : bool) (st : State) : State :=
  if ok then setStorage (delete "postedMealId" (storage st)) st else st.

(** ** The effects that follow a change of the pending meal *)

(** "Update local state when pending meal changes". *)
Definition syncDraft (st : State) : State :=
  match pendingMeal st with
  | Some pm =>
      match analysis pm with
      | Some a =>
          let st := setMealName (default [] (meal_name a)) st in
          let st := setMealDescription (default [] (description a)) st in
          let st :=
            setIngredients
              (formattedIngredients (default [] (analysis_ingredients a))) st in
          if nonEmpty (image_base_64 pm)
          then setOriginalImageBase64 (image_base_64 pm) st
          else st
      | None => st
      end
  | None => st
  end.

(** "Check for persisted meal ID". *)
Definition checkPersistedMealId (ok : bool) (st : State) : State :=
  match pendingMeal st with
  | Some _ =>
      if ok then
        match storage st !! "postedMealId" with
        | Some savedMealId =>
            if nonEmpty savedMealId then setPostedMealId (Some savedMealId) st
            else st
        | None => st
        end
      else st
  | None => st
  end.

Definition onPendingMealChange (read_ok : bool) (st : State) : State :=
  checkPersistedMealId read_ok (syncDraft st).

(** ** The reducers of the meal slice *)

(** Modelled from the spec: a fulfilled analysis creates the pending meal
    from the submitted image and the response, replacing the one there was
    (section 3, "Created by: a successful analysis call"; section 4.1, "On
    success, draft is replaced wholesale"). A rejected analysis, a post and
    an update leave the pending meal as it is. *)
Definition analyzeMeal_fulfilled (imageBase64 : jsstring) (a : Analysis)
    (st : State) : State :=
  setPendingMeal (Some {| image_base_64 := imageBase64; analysis := Some a |}) st.

(** Modelled from the spec: [clearPendingMeal] empties the slot. Both
    effects above are guarded by the pending meal and do nothing then. *)
Definition clearPendingMeal (st : State) : State :=
  setPendingMeal None (dispatch ClearPendingMeal st).

(** ** Capture and analysis *)

(** [i18n.language || "en"] *)
Definition currentLanguage (st : State) : jsstring :=
  if nonEmpty (language st) then language st else str "en".

(** [validateAndProcessImage(...)] followed by the test [!validatedBase64]:
    [null] and the empty string are falsy. *)
Definition validated (image : jsstring) : option jsstring :=
  match validateAndProcessImage image with
  | Some v => if nonEmpty v then Some v else None
  | None => None
  end.

(** [analyzeImage], up to the call of the analysis. *)
Definition beforeAnalysis (validatedBase64 : jsstring) (remove_ok : bool)
    (st : State) : State :=
  let st := setOriginalImageBase64 validatedBase64 st in
  let st := setPostedMealId None st in
  clearMealId remove_ok st.

(** [analyzeImage] *)
Definition analyzeImage (base64Image : jsstring) (result : Settled Analysis)
    (remove_ok read_ok : bool) (st : State) : State :=
  match validated base64Image with
  | None => alert "Error" "Invalid image. Please try again." st
  | Some validatedBase64 =>
      let st := beforeAnalysis validatedBase64 remove_ok st in
      let st :=
        dispatch (AnalyzeMeal validatedBase64 None (currentLanguage st) result) st in
      match result with
      | Fulfilled a =>
          onPendingMealChange read_ok (analyzeMeal_fulfilled validatedBase64 a st)
      | Rejected => alert "Error" "Analysis failed. Please try again." st
      end
  end.

(** ** Commit *)

(** The object [handlePost] assembles from the edits,
    [{...pendingMeal.analysis, meal_name, description, ingredients}]. *)
Definition updatedAnalysis (st : State) : Analysis :=
  {| meal_name := Some (mealName st);
     description := Some (mealDescription st);
     analysis_ingredients := Some (asEntry <$> ingredients st) |}.

(** [handlePost]. [updatedAnalysis] is bound and never used: [postMeal()]
    is called without an argument. *)
Definition handlePost (result : Settled (option jsstring)) (write_ok : bool)
    (st : State) : State :=
  match pendingMeal st with
  | Some _ =>
      if negb (isPosting st) then
        let _updatedAnalysis := updatedAnalysis st in
        let st := dispatch (PostMeal result) st in
        match result with
        | Fulfilled (Some mealId) =>
            if nonEmpty mealId then
              let st := setPostedMealId (Some mealId) st in
              let st := saveMealId write_ok mealId st in
              alert "Success" "Meal saved successfully!" st
            else st
        | Fulfilled None => st
        | Rejected => alert "Error" "Failed to save meal." st
        end
      else st
  | None => st
  end.

(** ** Discard *)

(** The button the user presses in the confirmation dialog. *)
Inductive Choice : Type := Cancel | Discard.

(** [handleDiscard]: the dialog, then the [onPress] of the chosen button. *)
Definition handleDiscard (choice : Choice) (remove_ok : bool) (st : State) : State :=
  let st := alert "Confirm" "Are you sure you want to discard this analysis?" st in
  match choice with
  | Cancel => st
  | Discard =>
      let st := clearPendingMeal st in
      let st := setPostedMealId None st in
      let st := setOriginalImageBase64 [] st in
      let st := setMealName [] st in
      let st := setMealDescription [] st in
      let st := setIngredients [] st in
      clearMealId remove_ok st
  end.

(** ** Editing the draft *)

(** [removeIngredient] *)
Definition removeIngredient (ingredientId : jsstring) (st : State) : State :=
  setIngredients
    (filter (fun ing => id ing <> ingredientId) (ingredients st)) st.

(** [editIngredient] *)
Definition editIngredient (ingredient : Ingredient) (st : State) : State :=
  setShowIngredientEdit true (setEditingIngredient (Some ingredient) st).

(** [{...editingIngredient, name: text}] *)
Definition withName (text : jsstring) (ing : Ingredient) : Ingredient :=
  {| id := id ing; name := JStr text; calories := calories ing;
     protein_g := protein_g ing; carbs_g := carbs_g ing; fats_g := fats_g ing;
     fiber_g := fiber_g ing; sugar_g := sugar_g ing; sodium_mg := sodium_mg ing |}.

(** [{...editingIngredient, calories: parseFloat(text) || 0}]; [parsed] is
    the number [parseFloat] returns. *)
Definition withCalories (parsed : float) (ing : Ingredient) : Ingredient :=
  {| id := id ing; name := name ing; calories := JNum parsed ||| zero;
     protein_g := protein_g ing; carbs_g := carbs_g ing; fats_g := fats_g ing;
     fiber_g := fiber_g ing; sugar_g := sugar_g ing; sodium_mg := sodium_mg ing |}.

(** [{...editingIngredient, protein_g: parseFloat(text) || 0}] *)
Definition withProtein (parsed : float) (ing : Ingredient) : Ingredient :=
  {| id := id ing; name := name ing; calories := calories ing;
     protein_g := JNum parsed ||| zero; carbs_g := carbs_g ing;
     fats_g := fats_g ing; fiber_g := fiber_g ing; sugar_g := sugar_g ing;
     sodium_mg := sodium_mg ing |}.

(** A text field of the ingredient modal changes; the modal shows its
    fields only while an ingredient is being edited. *)
Definition changeEditingIngredient (f : Ingredient -> Ingredient) (st : State) : State :=
  match editingIngredient st with
  | Some ing => setEditingIngredient (Some (f ing)) st
  | None => st
  end.

(** [saveIngredientEdit] *)
Definition saveIngredientEdit (st : State) : State :=
  match editingIngredient st with
  | Some edited =>
      let st :=
        setIngredients
          ((fun ing => if decide (id ing = id edited) then edited else ing)
             <$> ingredients st) st in
      let st := setEditingIngredient None st in
      setShowIngredientEdit false st
  | None => st
  end.

(** [onPanResponderRelease] of a card: the state update of its two
    branches (the animations touch no state; the removal is the callback of
    the fade-out). *)
Definition onPanResponderRelease (dx dy : float) (ingredient : Ingredient)
    (st : State) : State :=
  let distance := PrimFloat.sqrt (dx * dx + dy * dy)%float in
  if PrimFloat.ltb 100%float distance (* distance > 100 *)
  then removeIngredient (id ingredient) st
  else st.

Section Screen.

(** The conversion of a value that is not a string to a string (ToString
    of a number, a boolean, an array or an object), which a template
    literal and [join] apply; it is not modelled. *)
Variable ToString : jsval -> jsstring.

(** [`${v}`] *)
Definition interpolate (v : jsval) : jsstring :=
  match v with JStr s => s | _ => ToString v end.

(** The text of an element in [Array.prototype.join]. *)
Definition joinText (v : jsval) : jsstring :=
  match v with JUndefined | JNull => [] | _ => interpolate v end.

(** [items.join(sep)], the items being texts already. *)
Fixpoint join (sep : jsstring) (items : list jsstring) : jsstring :=
  match items with
  | [] => []
  | [x] => x
  | x :: rest => x ++ sep ++ join sep rest
  end.

(** The line break and the indentation of the two template literals. *)
Definition newline : jsstring := [10%N].
Definition indent : jsstring := str "        ".

(** [editText ? `Additional notes: ${editText}` : ""] *)
Definition additionalNotes (st : State) : jsstring :=
  if nonEmpty (editText st) then str "Additional notes: " ++ editText st else [].

(** The [updateText] of [reAnalyzeWithEdits]. *)
Definition reAnalyzeText (st : State) : jsstring :=
  trim (newline ++ indent ++ str "Updated meal name: " ++ mealName st
        ++ newline ++ indent ++ str "Updated description: " ++ mealDescription st
        ++ newline ++ indent ++ str "Corrected ingredients: "
        ++ join (str ", ") ((fun ing => joinText (name ing)) <$> ingredients st)
        ++ newline ++ indent ++ additionalNotes st
        ++ newline ++ str "      ").

(** The [updateText] of [handleUpdate]. *)
Definition updateText (st : State) : jsstring :=
  trim (newline ++ indent ++ str "Updated meal name: " ++ mealName st
        ++ newline ++ indent ++ str "Updated description: " ++ mealDescription st
        ++ newline ++ indent ++ str "Updated ingredients: "
        ++ join (str ", ")
             ((fun ing => interpolate (name ing) ++ str " ("
                          ++ interpolate (calories ing) ++ str " cal)")
                <$> ingredients st)
        ++ newline ++ indent ++ additionalNotes st
        ++ newline ++ str "      ").

(** ** Re-analysis *)

(** [originalImageBase64 || pendingMeal?.image_base_64], [None] when the
    result is falsy. *)
Definition imageToUse (st : State) : option jsstring :=
  if nonEmpty (originalImageBase64 st) then Some (originalImageBase64 st)
  else
    match pendingMeal st with
    | Some pm => if nonEmpty (image_base_64 pm) then Some (image_base_64 pm) else None
    | None => None
    end.

(** [reAnalyzeWithEdits] *)
Definition reAnalyzeWithEdits (result : Settled Analysis) (read_ok : bool)
    (st : State) : State :=
  match imageToUse st with
  | None => alert "Error" "No image available for re-analysis." st
  | Some image =>
      match validated image with
      | None => alert "Error" "Invalid image data." st
      | Some validatedBase64 =>
          let st :=
            dispatch (AnalyzeMeal validatedBase64 (Some (reAnalyzeText st))
                        (currentLanguage st) result) st in
          match result with
          | Fulfilled a =>
              let st :=
                onPendingMealChange read_ok
                  (analyzeMeal_fulfilled validatedBase64 a st) in
              let st := setShowEditModal false st in
              setEditText [] st
          | Rejected => alert "Error" "Re-analysis failed. Please try again." st
          end
      end
  end.

(** ** Update *)

(** [handleUpdate] *)
Definition handleUpdate (result : Settled unit) (remove_ok : bool)
    (st : State) : State :=
  match postedMealId st with
  | Some mealId =>
      if nonEmpty mealId then
        let st := dispatch (UpdateMeal mealId (updateText st) result) st in
        match result with
        | Fulfilled _ =>
            let st := alert "Success" "Meal updated successfully!" st in
            let st := setShowEditModal false st in
            let st := setEditText [] st in
            let st := clearPendingMeal st in
            let st := setPostedMealId None st in
            let st := setOriginalImageBase64 [] st in
            clearMealId remove_ok st
        | Rejected => alert "Error" "Failed to update meal." st
        end
      else alert "Error" "Please save the meal first before updating." st
  | None => alert "Error" "Please save the meal first before updating." st
  end.

(** ** Runs of the screen *)

(** What can happen to the mounted screen: a capture (camera or gallery)
    hands an image to [analyzeImage], the user presses a button or edits a
    field. Each event carries what the collaborators answer. *)
Inductive Event : Type :=
| Capture (base64Image : jsstring) (result : Settled Analysis)
    (remove_ok read_ok : bool)
| ReAnalyze (result : Settled Analysis) (read_ok : bool)
| Post (result : Settled (option jsstring)) (write_ok : bool)
| Update (result : Settled unit) (remove_ok : bool)
| PressDiscard (choice : Choice) (remove_ok : bool)
| TypeMealName (text : jsstring)
| TypeMealDescription (text : jsstring)
| TypeEditText (text : jsstring)
| OpenEditModal
| CloseEditModal
| TapIngredient (ingredient : Ingredient)
| TypeIngredientName (text : jsstring)
| TypeIngredientCalories (parsed : float)
| TypeIngredientProtein (parsed : float)
| SaveIngredient
| CloseIngredientModal
| PressRemove (ingredientId : jsstring)
| Release (dx dy : float) (ingredient : Ingredient).

Definition step (e : Event) (st : State) : State :=
  match e with
  | Capture image result remove_ok read_ok =>
      analyzeImage image result remove_ok read_ok st
  | ReAnalyze result read_ok => reAnalyzeWithEdits result read_ok st
  | Post result write_ok => handlePost result write_ok st
  | Update result remove_ok => handleUpdate result remove_ok st
  | PressDiscard choice remove_ok => handleDiscard choice remove_ok st
  | TypeMealName text => setMealName text st
  | TypeMealDescription text => setMealDescription text st
  | TypeEditText text => setEditText text st
  | OpenEditModal => setShowEditModal true st
  | CloseEditModal => setShowEditModal false st
  | TapIngredient ingredient => editIngredient ingredient st
  | TypeIngredientName text => changeEditingIngredient (withName text) st
  | TypeIngredientCalories parsed => changeEditingIngredient (withCalories parsed) st
  | TypeIngredientProtein parsed => changeEditingIngredient (withProtein parsed) st
  | SaveIngredient => saveIngredientEdit st
  | CloseIngredientModal => setShowIngredientEdit false st
  | PressRemove ingredientId => removeIngredient ingredientId st
  | Release dx dy ingredient => onPanResponderRelease dx dy ingredient st
  end.

(** The state after a sequence of events, the first event first. *)
Definition run (events : list Event) (st : State) : State :=
  foldl (fun st e => step e st) st events.

End Screen.

(** ** Sample inputs *)

(** A payload of 1000 letters [A]. *)
Definition thousandAs : jsstring := replicate 1000 65%N.

(** The response of the scenario, as an analysis. *)
Definition riceAndEggAnalysis : Analysis :=
  {| meal_name := Some (str "Rice bowl"); description := None;
     analysis_ingredients := Some riceAndEgg |}.

(** A stand-in for the conversion that is not modelled. *)
Definition someToString (v : jsval) : jsstring := str "?".

(** The scenarios of the specification for the validation. *)
Example validate_short : validateAndProcessImage (str "short") = None.
Proof. vm_compute. reflexivity. Qed.

Example validate_data_uri :
  validateAndProcessImage (str "data:image/png;base64," ++ thousandAs)
  = Some thousandAs.
Proof. vm_compute. reflexivity. Qed.

Example validate_padding :
  validateAndProcessImage (thousandAs ++ str "==") = Some (thousandAs ++ str "==")
  /\ validateAndProcessImage (thousandAs ++ str "===") = None
  /\ validateAndProcessImage (thousandAs ++ str "=A") = None
  /\ validateAndProcessImage (str " " ++ thousandAs) = None.
Proof. vm_compute. repeat split; reflexivity. Qed.

(** ** Properties of the handlers *)

Section Properties.

Variable ToString : jsval -> jsstring.

(** C7. With no posted meal identifier, [handleUpdate] shows the error
    "Please save the meal first before updating." and does nothing else:
    nothing is dispatched, and every other part of the state, the draft
    included, stays as it was. *)
Theorem handleUpdate_without_mealId (result : Settled unit) (remove_ok : bool)
    (st : State) :
  postedMealId st = None ->
  handleUpdate ToString result remove_ok st
  = setAlerts (("Error", "Please save the meal first before updating.")
                 :: alerts st) st
  /\ dispatched (handleUpdate ToString result remove_ok st) = dispatched st.
Proof.
  intros Hid. unfold handleUpdate. rewrite Hid. done.
Qed.

(** C10. [handlePost] commutes with every edit of the meal name, the
    description and the ingredient list: the edits leave what it dispatches,
    stores and shows untouched, and what it dispatches is at most the one
    [postMeal()], which carries no argument. *)
Theorem handlePost_ignores_edits (result : Settled (option jsstring))
    (write_ok : bool) (st : State)
    (editedName editedDescription : jsstring) (editedIngredients : list Ingredient) :
  let edit st :=
    setMealName editedName
      (setMealDescription editedDescription
         (setIngredients editedIngredients st)) in
  handlePost result write_ok (edit st) = edit (handlePost result write_ok st)
  /\ dispatched (handlePost result write_ok (edit st))
     = dispatched (handlePost result write_ok st)
  /\ (dispatched (handlePost result write_ok st) = dispatched st
      \/ dispatched (handlePost result write_ok st) = PostMeal result :: dispatched st).
Proof.
  intros edit. subst edit.
  assert (H : handlePost result write_ok
                (setMealName editedName
                  (setMealDescription editedDescription
                    (setIngredients editedIngredients st)))
              = setMealName editedName
                  (setMealDescription editedDescription
                    (setIngredients editedIngredients
                       (handlePost result write_ok st)))).
  { unfold handlePost. simpl.
    destruct (pendingMeal st); [|done].
    destruct (isPosting st); simpl; [done|].
    destruct result as [[mealId|]|]; try done.
    destruct (nonEmpty mealId); [|done]. by destruct write_ok. }
  split; [exact H|]. split; [by rewrite H|].
  unfold handlePost.
  destruct (pendingMeal st); [|by left].
  destruct (isPosting st); simpl; [by left|].
  destruct result as [[mealId|]|]; try (by right).
  destruct (nonEmpty mealId); [|by right]. by destruct write_ok; right.
Qed.

End Properties.

Lemma handleUpdate_without_mealId_initial :
  handleUpdate someToString (Fulfilled ()) true (initialState [])
  = setAlerts (("Error", "Please save the meal first before updating.")
                 :: alerts (initialState [])) (initialState [])
  /\ dispatched (handleUpdate someToString (Fulfilled ()) true (initialState []))
     = dispatched (initialState []).
Proof. apply (handleUpdate_without_mealId someToString). reflexivity. Defined.

(** *** Discard *)

(** A meal is analysed and posted as meal 42; the user confirms the discard
    and AsyncStorage rejects the removal: the pending meal and the
    identifier in memory are cleared, the durable record is not. *)
Lemma discard_keeps_record_when_removal_rejects :
  let posted :=
    run someToString
      [ Capture thousandAs (Fulfilled riceAndEggAnalysis) true true;
        Post (Fulfilled (Some (str "42"))) true ]
      (initialState []) in
  let discarded := handleDiscard Discard false posted in
  storage posted !! "postedMealId" = Some (str "42") /\
  pendingMeal discarded = None /\
  postedMealId discarded = None /\
  storage discarded !! "postedMealId" = Some (str "42").
Proof. vm_compute. repeat split; reflexivity. Qed.

(** The scenario of the specification: create succeeds with meal 42, then
    discard is confirmed (and the removal resolves). *)
Example discard_after_post :
  let discarded :=
    run someToString
      [ Capture thousandAs (Fulfilled riceAndEggAnalysis) true true;
        Post (Fulfilled (Some (str "42"))) true;
        PressDiscard Discard true ]
      (initialState []) in
  pendingMeal discarded = None /\ postedMealId discarded = None /\
  storage discarded !! "postedMealId" = None /\ ingredients discarded = [].
Proof. vm_compute. repeat split; reflexivity. Qed.

(** C5 (amended). A confirmed discard clears the pending meal and the
    identifier in memory together, whatever the state, and removes the
    durable record with them when AsyncStorage resolves the removal; when
    the removal is rejected the record stays as it was. A cancelled discard
    clears none of the three. *)
Theorem handleDiscard_clears (remove_ok : bool) (st : State) :
  (pendingMeal (handleDiscard Discard remove_ok st) = None /\
   postedMealId (handleDiscard Discard remove_ok st) = None /\
   storage (handleDiscard Discard remove_ok st) !! "postedMealId"
   = if remove_ok then None else storage st !! "postedMealId") /\
  (pendingMeal (handleDiscard Cancel remove_ok st) = pendingMeal st /\
   postedMealId (handleDiscard Cancel remove_ok st) = postedMealId st /\
   storage (handleDiscard Cancel remove_ok st) = storage st).
Proof.
  split; [|done]. unfold handleDiscard, clearMealId.
  destruct remove_ok; simpl; [|done].
  repeat split. apply lookup_delete_eq.
Qed.

(** *** Re-analysis *)

Section ReAnalysis.

Variable ToString : jsval -> jsstring.

(** The image [reAnalyzeWithEdits] sends, when it sends one. *)
Definition reAnalysisImage (st : State) : option jsstring :=
  match imageToUse st with
  | Some image => validated image
  | None => None
  end.

Lemma checkPersistedMealId_draft ok st :
  mealName (checkPersistedMealId ok st) = mealName st /\
  mealDescription (checkPersistedMealId ok st) = mealDescription st /\
  ingredients (checkPersistedMealId ok st) = ingredients st /\
  pendingMeal (checkPersistedMealId ok st) = pendingMeal st.
Proof.
  unfold checkPersistedMealId.
  destruct (pendingMeal st) eqn:Hp; [|by rewrite Hp].
  destruct ok; [|by rewrite Hp].
  destruct (storage st !! "postedMealId") as [saved|]; [|by rewrite Hp].
  destruct (nonEmpty saved); simpl; by rewrite Hp.
Qed.

Lemma syncDraft_fresh image a st :
  let st' := syncDraft (analyzeMeal_fulfilled image a st) in
  mealName st' = default [] (meal_name a) /\
  mealDescription st' = default [] (description a) /\
  ingredients st' = formattedIngredients (default [] (analysis_ingredients a)) /\
  pendingMeal st' = Some {| image_base_64 := image; analysis := Some a |}.
Proof. unfold syncDraft. simpl. by destruct (nonEmpty image). Qed.

(** C6. When [reAnalyzeWithEdits] makes its call and the call is fulfilled
    with the analysis [a], the meal name, the description and the
    ingredient list become those of [a], normalized, whatever they were
    before (so nothing of the earlier draft is left but what [a] carries);
    when the call is rejected, and when no call is made, the three and the
    pending meal stay as they were. *)
Theorem reAnalyze_replaces_or_retains (read_ok : bool) (st : State) :
  (forall image a, reAnalysisImage st = Some image ->
     let st' := reAnalyzeWithEdits ToString (Fulfilled a) read_ok st in
     mealName st' = default [] (meal_name a) /\
     mealDescription st' = default [] (description a) /\
     ingredients st' = formattedIngredients (default [] (analysis_ingredients a)) /\
     pendingMeal st' = Some {| image_base_64 := image; analysis := Some a |}) /\
  (let st' := reAnalyzeWithEdits ToString Rejected read_ok st in
   mealName st' = mealName st /\ mealDescription st' = mealDescription st /\
   ingredients st' = ingredients st /\ pendingMeal st' = pendingMeal st) /\
  (forall result, reAnalysisImage st = None ->
     let st' := reAnalyzeWithEdits ToString result read_ok st in
     mealName st' = mealName st /\ mealDescription st' = mealDescription st /\
     ingredients st' = ingredients st /\ pendingMeal st' = pendingMeal st).
Proof.
  unfold reAnalysisImage, reAnalyzeWithEdits. split; [|split].
  - intros image a Himg.
    destruct (imageToUse st) as [raw|]; [|done]. rewrite Himg. cbv zeta.
    unfold onPendingMealChange. cbn [mealName mealDescription ingredients
      pendingMeal setEditText setShowEditModal].
    destruct (checkPersistedMealId_draft read_ok
                (syncDraft (analyzeMeal_fulfilled image a
                   (dispatch (AnalyzeMeal image (Some (reAnalyzeText ToString st))
                                (currentLanguage st) (Fulfilled a)) st))))
      as (-> & -> & -> & ->).
    apply syncDraft_fresh.
  - destruct (imageToUse st) as [raw|]; [|done].
    by destruct (validated raw).
  - intros result Himg.
    destruct (imageToUse st) as [raw|]; [|done]. by rewrite Himg.
Qed.

End ReAnalysis.

(** An edited draft (a new name, the first ingredient removed) is
    re-analysed: the answer of the service replaces it entirely. *)
Example reAnalyze_drops_edits :
  let edited :=
    run someToString
      [ Capture thousandAs (Fulfilled riceAndEggAnalysis) true true;
        TypeMealName (str "My lunch");
        PressRemove (str "ing_0");
        TypeEditText (str "no rice") ]
      (initialState []) in
  (id <$> ingredients edited) = [str "ing_1"] /\
  mealName edited = str "My lunch" /\
  ingredients (reAnalyzeWithEdits someToString (Fulfilled riceAndEggAnalysis) true edited)
  = formattedIngredients riceAndEgg /\
  mealName (reAnalyzeWithEdits someToString (Fulfilled riceAndEggAnalysis) true edited)
  = str "Rice bowl" /\
  ingredients (reAnalyzeWithEdits someToString Rejected true edited)
  = ingredients edited.
Proof. vm_compute. repeat split; reflexivity. Qed.

(** *** Drag to remove *)

(** [Math.sqrt(dx * dx + dy * dy)], in double precision as the handler
    computes it. *)
Definition displacement (dx dy : float) : float :=
  PrimFloat.sqrt (dx * dx + dy * dy)%float.

(** The identifiers the normalization assigns are pairwise distinct. *)
Lemma str_inj s1 s2 : str s1 = str s2 -> s1 = s2.
Proof.
  unfold str. intros H.
  rewrite <- (string_of_list_ascii_of_string s1),
          <- (string_of_list_ascii_of_string s2).
  f_equal. revert H. generalize (list_ascii_of_string s1) (list_ascii_of_string s2).
  induction l as [|a l IH]; intros [|b l']; simpl; try done.
  intros [= Hab Hl]. f_equal; [|by apply IH].
  by rewrite <- (ascii_N_embedding a), <- (ascii_N_embedding b), Hab.
Qed.

Lemma decimal_inj n m : decimal n = decimal m -> n = m.
Proof.
  unfold decimal. intros H. apply str_inj in H.
  apply (f_equal NilEmpty.uint_of_string) in H. rewrite !NilEmpty.usu in H.
  injection H as H. apply (f_equal Nat.of_uint) in H.
  by rewrite !DecimalNat.Unsigned.of_to in H.
Qed.

Lemma formattedIngredients_ids raw :
  NoDup (id <$> formattedIngredients raw).
Proof.
  unfold formattedIngredients. apply NoDup_alt. intros i j x.
  rewrite !list_lookup_fmap, !list_lookup_imap.
  destruct (raw !! i) as [a|]; [|done]. destruct (raw !! j) as [b|]; [|done].
  simpl. intros [= <-] [= H]. symmetry. by apply decimal_inj.
Qed.

(** C9 (amended). Releasing a card at displacement [(dx, dy)] removes its ingredient
    from the list exactly when [Math.sqrt(dx * dx + dy * dy)], as the
    handler computes it, exceeds 100: then the ingredients with the
    identifier of the card are filtered out and all others stay, in order;
    otherwise the state is unchanged. *)
Theorem release_threshold (dx dy : float) (ingredient : Ingredient) (st : State) :
  let st' := onPanResponderRelease dx dy ingredient st in
  (PrimFloat.ltb 100%float (displacement dx dy) = true ->
     ingredients st' = filter (fun ing => id ing <> id ingredient) (ingredients st)
     /\ (ingredient ∉ ingredients st')
     /\ (forall other, other ∈ ingredients st -> id other <> id ingredient ->
           other ∈ ingredients st')) /\
  (PrimFloat.ltb 100%float (displacement dx dy) = false -> st' = st) /\
  (ingredient ∈ ingredients st ->
     (ingredient ∉ ingredients st' <->
      PrimFloat.ltb 100%float (displacement dx dy) = true)).
Proof.
  unfold onPanResponderRelease, displacement. cbv zeta.
  destruct (PrimFloat.ltb _ _); simpl.
  - assert (Hout : ingredient ∉ filter (fun ing => id ing <> id ingredient)
                     (ingredients st)).
    { rewrite list_elem_of_filter. by intros [H _]. }
    split; [|split; [done|]].
    + intros _. split; [done|]. split; [done|].
      intros other Hin Hid. by apply list_elem_of_filter.
    + intros _. by split.
  - split; [done|]. split; [done|]. intros Hin. split; [done | discriminate].
Qed.

Lemma filter_all {A} (P : A -> Prop) `{forall x, Decision (P x)} (l : list A) :
  Forall P l -> filter P l = l.
Proof.
  induction 1 as [|x l Hx _ IH]; [done|].
  by rewrite filter_cons_True, IH.
Qed.

(** On a freshly normalized list, whose identifiers are distinct, the
    filter removes the dragged card and nothing else. *)
Lemma removeIngredient_exactly_one raw i ingredient st :
  ingredients st = formattedIngredients raw ->
  ingredients st !! i = Some ingredient ->
  ingredients (removeIngredient (id ingredient) st) = delete i (ingredients st).
Proof.
  intros Hl Hi. unfold removeIngredient. simpl.
  pose proof (formattedIngredients_ids raw) as Hnd. rewrite <- Hl in Hnd.
  clear Hl. revert i Hi Hnd. induction (ingredients st) as [|x l IH]; [done|].
  intros [|i] Hi Hnd; simpl in *.
  - injection Hi as ->. rewrite filter_cons_False by (intros H; by apply H).
    apply NoDup_cons in Hnd as [Hx _].
    apply filter_all. apply Forall_forall. intros y Hy Heq.
    apply Hx. rewrite <- Heq. by apply list_elem_of_fmap_2.
  - apply NoDup_cons in Hnd as [Hx Hnd].
    rewrite filter_cons_True.
    + f_equal. by apply IH.
    + intros Heq. apply Hx. rewrite Heq.
      apply list_elem_of_fmap_2. by eapply list_elem_of_lookup_2.
Qed.

(** The boundary of the threshold: (60, 80) is at distance 100 exactly and
    snaps back, (60, 81) is removed. *)
Example release_boundary :
  PrimFloat.ltb 100%float (displacement 60 80) = false /\
  PrimFloat.ltb 100%float (displacement 60 81) = true /\
  PrimFloat.ltb 100%float (displacement (-100.5) 0) = true /\
  PrimFloat.ltb 100%float (displacement nan 500) = false.
Proof. vm_compute. repeat split; reflexivity. Qed.

(** The displacement is the rounded value: a drag of (100, 2^-30) is at the
    computed distance 100 and snaps back. *)
Example release_rounded :
  displacement 100 0x1p-30 = 100%float /\
  PrimFloat.ltb 100%float (displacement 100 0x1p-30) = false.
Proof. vm_compute. split; reflexivity. Qed.

(** *** The posted meal identifier along a run *)

(** Whether a create call has succeeded since the most recent discard,
    update-commit (both dispatch [clearPendingMeal]) or start of a new
    capture (an [analyzeMeal] without [updateText]); [log] is what was
    dispatched, latest first. *)
Fixpoint createdSinceReset (log : list Dispatched) : bool :=
  match log with
  | [] => false
  | PostMeal (Fulfilled _) :: _ => true
  | ClearPendingMeal :: _ => false
  | AnalyzeMeal _ None _ _ :: _ => false
  | _ :: rest => createdSinceReset rest
  end.

(** The identifier of the create call that has succeeded with a non-empty
    [meal_id] since the most recent discard, update-commit or start of a
    new capture, if there is one. *)
Fixpoint createdMealId (log : list Dispatched) : option jsstring :=
  match log with
  | [] => None
  | PostMeal (Fulfilled (Some mealId)) :: rest =>
      if nonEmpty mealId then Some mealId else createdMealId rest
  | ClearPendingMeal :: _ => None
  | AnalyzeMeal _ None _ _ :: _ => None
  | _ :: rest => createdMealId rest
  end.

(** AsyncStorage resolves the write or the removal of the durable record
    that the event asks for, if it asks for one. *)
Definition storeResolves (e : Event) : bool :=
  match e with
  | Capture _ _ remove_ok _ => remove_ok
  | Post _ write_ok => write_ok
  | Update _ remove_ok => remove_ok
  | PressDiscard _ remove_ok => remove_ok
  | _ => true
  end.

(** What a run from the first launch maintains while the writes and the
    removals of the durable record resolve: the identifier in memory is the
    one of the last create since a reset, and the durable record holds the
    same. *)
Definition inSync (st : State) : Prop :=
  postedMealId st = createdMealId (dispatched st) /\
  storage st !! "postedMealId" = postedMealId st.

(** A create call that is fulfilled without a [meal_id] leaves the
    identifier unset (first run); a removal that AsyncStorage rejects leaves
    a record that the next analysis brings back into memory, with no create
    call since the new capture (second run). *)
Lemma mealId_not_iff_created :
  let noId :=
    run someToString
      [ Capture thousandAs (Fulfilled riceAndEggAnalysis) true true;
        Post (Fulfilled None) true ]
      (initialState []) in
  let stale :=
    run someToString
      [ Capture thousandAs (Fulfilled riceAndEggAnalysis) true true;
        Post (Fulfilled (Some (str "42"))) true;
        PressDiscard Discard false;
        Capture thousandAs (Fulfilled riceAndEggAnalysis) false true ]
      (initialState []) in
  (postedMealId noId = None /\ createdSinceReset (dispatched noId) = true) /\
  (postedMealId stale = Some (str "42") /\
   createdSinceReset (dispatched stale) = false).
Proof. vm_compute. repeat split; reflexivity. Qed.

Lemma syncDraft_record st :
  postedMealId (syncDraft st) = postedMealId st /\
  storage (syncDraft st) = storage st /\
  dispatched (syncDraft st) = dispatched st /\
  pendingMeal (syncDraft st) = pendingMeal st.
Proof.
  unfold syncDraft. destruct (pendingMeal st) as [pm|] eqn:Hp; [|by rewrite Hp].
  destruct (analysis pm); [|by rewrite Hp].
  destruct (nonEmpty (image_base_64 pm)); simpl; by rewrite Hp.
Qed.

(** The effects keep a state in sync: what they read from the record is
    what is in memory already. *)
Lemma onPendingMealChange_inSync read_ok st :
  inSync st -> inSync (onPendingMealChange read_ok st).
Proof.
  intros [Hid Hrec]. unfold onPendingMealChange.
  destruct (syncDraft_record st) as (Hp & Hs & Hd & Hm).
  unfold inSync, checkPersistedMealId.
  destruct (pendingMeal (syncDraft st)); [|by rewrite Hp, Hs, Hd].
  destruct read_ok; [|by rewrite Hp, Hs, Hd].
  destruct (storage (syncDraft st) !! "postedMealId") as [saved|] eqn:Hsaved;
    [|by rewrite Hp, Hs, Hd].
  destruct (nonEmpty saved); [|by rewrite Hp, Hs, Hd].
  simpl. rewrite Hs, Hd in *. rewrite Hrec in Hsaved. by rewrite <- Hsaved, <- Hid.
Qed.

Section Runs.

Variable ToString : jsval -> jsstring.

Lemma step_inSync e st :
  storeResolves e = true -> inSync st -> inSync (step ToString e st).
Proof.
  intros Hok Hst. pose proof Hst as [Hid Hrec].
  destruct e; simpl in *; try exact Hst.
  - (* Capture *)
    subst remove_ok. unfold analyzeImage.
    destruct (validated base64Image) as [v|]; [|exact Hst].
    assert (Hstart : forall log, inSync
              (setDispatched (AnalyzeMeal v None log result :: dispatched st)
                 (beforeAnalysis v true st))).
    { intros log. split; simpl; [done | apply lookup_delete_eq]. }
    destruct result as [a|]; [|apply Hstart].
    apply onPendingMealChange_inSync.
    destruct (Hstart (currentLanguage (beforeAnalysis v true st))) as [H1 H2].
    by split.
  - (* ReAnalyze *)
    unfold reAnalyzeWithEdits.
    destruct (imageToUse st) as [image|]; [|exact Hst].
    destruct (validated image) as [v|]; [|exact Hst].
    destruct result as [a|]; [|exact Hst].
    set (called := analyzeMeal_fulfilled v a _).
    assert (Hc : inSync called) by (by split).
    apply (onPendingMealChange_inSync read_ok) in Hc as [H1 H2].
    by split.
  - (* Post *)
    subst write_ok. unfold handlePost.
    destruct (pendingMeal st); [|exact Hst].
    destruct (isPosting st); [exact Hst|]. simpl.
    destruct result as [[mealId|]|]; try exact Hst.
    destruct (nonEmpty mealId) eqn:Hne; split; simpl; rewrite ?Hne; try done.
    apply lookup_insert_eq.
  - (* Update *)
    subst remove_ok. unfold handleUpdate.
    destruct (postedMealId st) as [mealId|] eqn:Hposted; [|exact Hst].
    destruct (nonEmpty mealId); [|exact Hst].
    destruct result; [|exact Hst].
    split; simpl; [done | apply lookup_delete_eq].
  - (* PressDiscard *)
    subst remove_ok. destruct choice; [exact Hst|].
    split; simpl; [done | apply lookup_delete_eq].
  - (* TypeIngredientName *)
    unfold changeEditingIngredient. by destruct (editingIngredient st).
  - unfold changeEditingIngredient. by destruct (editingIngredient st).
  - unfold changeEditingIngredient. by destruct (editingIngredient st).
  - (* SaveIngredient *)
    unfold saveIngredientEdit. by destruct (editingIngredient st).
  - (* Release *)
    unfold onPanResponderRelease. by destruct (PrimFloat.ltb _ _).
Qed.

Lemma run_inSync events st :
  forallb storeResolves events = true -> inSync st ->
  inSync (run ToString events st).
Proof.
  revert st. induction events as [|e events IH]; intros st Hok Hst; [done|].
  simpl in Hok. apply andb_prop in Hok as [He Hes].
  apply IH; [done|]. by apply step_inSync.
Qed.

End Runs.

(** C4 (amended). Along a run from the first launch in which AsyncStorage
    resolves every write and removal, the identifier in memory is set exactly
    when a create call has succeeded with a non-empty [meal_id] since the
    most recent discard, update-commit or start of a new capture; it is then
    that [meal_id], and the durable record holds the same. Whatever the
    state, [analyzeImage] reaches its analysis call with the identifier in
    memory cleared, and with the durable record removed when the removal
    resolves; and a post that is fulfilled with a non-empty [meal_id] sets
    the identifier in memory to it, and the durable record too when the
    write resolves. *)
Theorem postedMealId_iff_created (ToString : jsval -> jsstring)
    (lang : jsstring) (events : list Event) :
  forallb storeResolves events = true ->
  (let st := run ToString events (initialState lang) in
   (is_Some (postedMealId st) <-> is_Some (createdMealId (dispatched st))) /\
   postedMealId st = createdMealId (dispatched st) /\
   storage st !! "postedMealId" = postedMealId st) /\
  (forall image validatedBase64 result remove_ok read_ok st,
     validated image = Some validatedBase64 ->
     let ready := beforeAnalysis validatedBase64 remove_ok st in
     postedMealId ready = None /\
     (remove_ok = true -> storage ready !! "postedMealId" = None) /\
     dispatched ready = dispatched st /\
     analyzeImage image result remove_ok read_ok st
     = let called :=
         dispatch (AnalyzeMeal validatedBase64 None (currentLanguage ready) result)
           ready in
       match result with
       | Fulfilled a =>
           onPendingMealChange read_ok
             (analyzeMeal_fulfilled validatedBase64 a called)
       | Rejected => alert "Error" "Analysis failed. Please try again." called
       end) /\
  (forall mealId write_ok pending st,
     pendingMeal st = Some pending -> isPosting st = false ->
     nonEmpty mealId = true ->
     let st' := handlePost (Fulfilled (Some mealId)) write_ok st in
     postedMealId st' = Some mealId /\
     (write_ok = true -> storage st' !! "postedMealId" = Some mealId)).
Proof.
  intros Hok. split; [|split].
  - destruct (run_inSync ToString events (initialState lang) Hok) as [Hid Hrec];
      [by split|].
    cbv zeta. split; [by rewrite Hid | by split].
  - intros image v result remove_ok read_ok st Hv. cbv zeta.
    split; [by destruct remove_ok|]. split.
    { intros ->. apply lookup_delete_eq. }
    split; [by destruct remove_ok|].
    unfold analyzeImage. by rewrite Hv.
  - intros mealId write_ok pending st Hp Hposting Hne. cbv zeta.
    unfold handlePost. rewrite Hp, Hposting, Hne. simpl.
    split; [by destruct write_ok|]. intros ->. apply lookup_insert_eq.
Qed.

(** A run in which a meal is analysed, posted as meal 42 and re-analysed. *)
Lemma postedMealId_after_post_and_reanalysis :
  let st :=
    run someToString
      [ Capture thousandAs (Fulfilled riceAndEggAnalysis) true true;
        Post (Fulfilled (Some (str "42"))) true;
        ReAnalyze (Fulfilled riceAndEggAnalysis) true ]
      (initialState []) in
  (is_Some (postedMealId st) <-> is_Some (createdMealId (dispatched st))) /\
  postedMealId st = createdMealId (dispatched st) /\
  storage st !! "postedMealId" = postedMealId st.
Proof.
  apply (postedMealId_iff_created someToString []
           [ Capture thousandAs (Fulfilled riceAndEggAnalysis) true true;
             Post (Fulfilled (Some (str "42"))) true;
             ReAnalyze (Fulfilled riceAndEggAnalysis) true ]).
  reflexivity.
Defined.

Example postedMealId_after_post :
  postedMealId
    (run someToString
       [ Capture thousandAs (Fulfilled riceAndEggAnalysis) true true;
         Post (Fulfilled (Some (str "42"))) true;
         ReAnalyze (Fulfilled riceAndEggAnalysis) true ]
       (initialState []))
  = Some (str "42").
Proof. vm_compute. reflexivity. Qed.

(** * Further properties *)

(** ** The validation on its own output and on data URIs *)

Lemma base64_shaped_units s :
  base64_shaped s -> Forall (fun c => base64Class c = true \/ c = equalsSign) s.
Proof.
  intros (body & k & -> & Hbody & _). apply Forall_app. split.
  - eapply Forall_impl; [exact Hbody|]. intros c Hc. left.
    by apply base64Class_alphabet.
  - apply Forall_forall. intros c Hc. right. by eapply elem_of_replicate_inv.
Qed.

Lemma base64_unit_not_whiteSpace c :
  base64Class c = true \/ c = equalsSign -> isWhiteSpace c = false.
Proof.
  intros H. destruct (isWhiteSpace c) eqn:Hw; [|done].
  apply whiteSpace_not_base64 in Hw as [Hw1 Hw2].
  destruct H; congruence.
Qed.

Lemma dropWhile_keeps {A} (f : A -> bool) x l :
  f x = false -> dropWhile f (x :: l) = x :: l.
Proof. intros H. simpl. by rewrite H. Qed.

Lemma dropWhile_last {A} (f : A -> bool) l x :
  f x = false -> dropWhile f (l ++ [x]) <> [].
Proof.
  intros Hx. induction l as [|y l IH]; simpl.
  - by rewrite Hx.
  - by destruct (f y).
Qed.

(** A string that starts with a unit that is not white space does not trim
    to the empty string. *)
Lemma trim_nonEmpty c s : isWhiteSpace c = false -> nonEmpty (trim (c :: s)) = true.
Proof.
  intros Hc. unfold trim. rewrite (dropWhile_keeps _ _ _ Hc), reverse_cons.
  pose proof (dropWhile_last isWhiteSpace (reverse s) c Hc) as Hne.
  destruct (dropWhile isWhiteSpace (reverse s ++ [c])) as [|d r]; [done|].
  rewrite reverse_cons. by destruct (reverse r).
Qed.

(** A base64-shaped payload is not a data URI: the colon is outside the
    alphabet. *)
Lemma base64_shaped_clean s : base64_shaped s -> cleanBase64 s = s.
Proof.
  intros Hs. unfold cleanBase64.
  destruct (startsWith s (str "data:image/")) eqn:Hsw; [|done]. exfalso.
  apply startsWith_spec in Hsw as (rest & ->).
  apply base64_shaped_units in Hs.
  rewrite Forall_forall in Hs. destruct (Hs 58%N) as [H|H]; try discriminate.
  apply elem_of_app. left. vm_compute. do 4 right. left.
Qed.

(** What the validation does once the stripped payload is known. *)
Lemma validate_unfold p :
  nonEmpty p = true -> nonEmpty (trim p) = true ->
  validateAndProcessImage p =
  if regex_test base64Regex (cleanBase64 p) && (1000 <=? length (cleanBase64 p))%nat
  then Some (cleanBase64 p) else None.
Proof.
  intros H1 H2. unfold validateAndProcessImage. rewrite H1, H2. cbn [negb orb].
  cbv zeta. rewrite Nat.ltb_antisym.
  destruct (regex_test base64Regex (cleanBase64 p)); cbn [negb andb]; [|done].
  by destruct (1000 <=? length (cleanBase64 p))%nat.
Qed.

(** The payloads the validation returns unchanged are exactly the
    base64-shaped payloads of at least 1000 units. *)
Lemma validate_fixed c :
  validateAndProcessImage c = Some c <->
  base64_shaped c /\ (1000 <= length c)%nat.
Proof.
  split.
  - unfold validateAndProcessImage.
    destruct (negb (nonEmpty c) || negb (nonEmpty (trim c))); [done|]. cbv zeta.
    destruct (regex_test base64Regex (cleanBase64 c)) eqn:Hr; [|done]. simpl.
    destruct (Nat.ltb_spec (length (cleanBase64 c)) 1000); [done|].
    intros [= Hc]. rewrite Hc in *. split; [by apply base64Regex_shaped | done].
  - intros [Hs Hl]. pose proof (base64_shaped_units _ Hs) as Hu.
    destruct c as [|d c]; [simpl in Hl; lia|].
    apply Forall_cons in Hu as [Hd _].
    rewrite validate_unfold;
      [| done | by apply trim_nonEmpty, base64_unit_not_whiteSpace].
    rewrite (base64_shaped_clean _ Hs).
    replace (regex_test base64Regex (d :: c)) with true
      by (symmetry; by apply base64Regex_shaped).
    by destruct (Nat.leb_spec 1000 (length (d :: c))); [|lia].
Qed.

(** X1. A payload the validation has accepted is accepted again, unchanged:
    validating twice is validating once. *)
Theorem validateAndProcessImage_idempotent (p c : jsstring) :
  validateAndProcessImage p = Some c -> validateAndProcessImage c = Some c.
Proof.
  intros Hp. apply validate_fixed. revert Hp. unfold validateAndProcessImage.
  destruct (negb (nonEmpty p) || negb (nonEmpty (trim p))); [done|]. cbv zeta.
  destruct (regex_test base64Regex (cleanBase64 p)) eqn:Hr; [|done]. simpl.
  destruct (Nat.ltb_spec (length (cleanBase64 p)) 1000); [done|].
  intros [= <-]. split; [by apply base64Regex_shaped | done].
Qed.

Lemma validateAndProcessImage_idempotent_data_uri :
  validateAndProcessImage thousandAs = Some thousandAs.
Proof.
  apply (validateAndProcessImage_idempotent
           (str "data:image/png;base64," ++ thousandAs) thousandAs).
  vm_compute. reflexivity.
Defined.

(** X2. For a [data:image/] URI the validation answers as it does for the
    text after the first comma alone, when that text is returned at all:
    whatever stands between [data:image/] and the comma (the MIME subtype,
    the encoding) is never looked at. *)
Theorem validateAndProcessImage_data_uri (mime c r : jsstring) :
  comma ∉ mime ->
  (validateAndProcessImage (str "data:image/" ++ mime ++ comma :: c) = Some r
   <-> r = c /\ validateAndProcessImage c = Some c).
Proof.
  intros Hm. set (p := str "data:image/" ++ mime ++ comma :: c).
  assert (Hclean : cleanBase64 p = c).
  { symmetry. apply cleanBase64_stripped. left. by exists mime. }
  rewrite validate_fixed, (validate_unfold p), Hclean;
    [| done | by apply trim_nonEmpty].
  destruct (regex_test base64Regex c) eqn:Hr; cbn [andb].
  - apply base64Regex_shaped in Hr.
    destruct (Nat.leb_spec 1000 (length c)).
    + split; [by intros [= <-] | by intros [-> _]].
    + split; [done | intros (_ & _ & ?); lia].
  - split; [done|]. intros (_ & Hs & _).
    apply base64Regex_shaped in Hs. congruence.
Qed.

Lemma validateAndProcessImage_data_uri_jpeg :
  validateAndProcessImage
    (str "data:image/" ++ str "jpeg;base64" ++ comma :: thousandAs)
  = Some thousandAs
  <-> thousandAs = thousandAs /\ validateAndProcessImage thousandAs = Some thousandAs.
Proof.
  apply (validateAndProcessImage_data_uri (str "jpeg;base64") thousandAs thousandAs).
  vm_compute. intros H. by repeat (apply elem_of_cons in H as [H|H]; [done|]); inversion H.
Defined.

(** ** The ingredient list along a run *)

Lemma ids_filter (P : Ingredient -> Prop) `{forall x, Decision (P x)} l :
  NoDup (id <$> l) -> NoDup (id <$> filter P l).
Proof.
  induction l as [|x l IH]; [done|]. rewrite fmap_cons, NoDup_cons.
  intros [Hx Hl]. rewrite filter_cons. destruct (decide (P x)); [|by apply IH].
  rewrite fmap_cons. apply NoDup_cons. split; [|by apply IH].
  intros Hin. apply Hx. apply list_elem_of_fmap in Hin as (y & -> & Hy).
  apply list_elem_of_filter in Hy as [_ Hy]. by apply list_elem_of_fmap_2.
Qed.

(** [saveIngredientEdit] gives the edited ingredient the place of those
    with its identifier: the identifiers of the list stay as they are. *)
Lemma ids_replace edited (l : list Ingredient) :
  id <$> ((fun ing => if decide (id ing = id edited) then edited else ing) <$> l)
  = id <$> l.
Proof.
  induction l as [|x l IH]; [done|]. rewrite !fmap_cons, IH. f_equal.
  by destruct (decide (id x = id edited)).
Qed.

Lemma filter_id_delete (l : list Ingredient) i ing :
  NoDup (id <$> l) -> l !! i = Some ing ->
  filter (fun x => id x <> id ing) l = delete i l.
Proof.
  revert i. induction l as [|x l IH]; [done|].
  intros [|i] Hnd Hi; simpl in *; apply NoDup_cons in Hnd as [Hx Hnd].
  - injection Hi as ->. rewrite filter_cons_False by (intros H; by apply H).
    apply filter_all. apply Forall_forall. intros y Hy Heq.
    apply Hx. rewrite <- Heq. by apply list_elem_of_fmap_2.
  - rewrite filter_cons_True.
    + f_equal. by apply IH.
    + intros Heq. apply Hx. rewrite Heq.
      apply list_elem_of_fmap_2. by eapply list_elem_of_lookup_2.
Qed.

Lemma replace_id_insert (l : list Ingredient) i ing edited :
  NoDup (id <$> l) -> l !! i = Some ing -> id edited = id ing ->
  (fun x => if decide (id x = id edited) then edited else x) <$> l
  = <[i := edited]> l.
Proof.
  intros Hnd Hi Hid. rewrite Hid. clear Hid. revert i Hnd Hi.
  induction l as [|x l IH]; [done|].
  intros [|i] Hnd Hi; simpl in *; apply NoDup_cons in Hnd as [Hx Hnd].
  - injection Hi as ->. rewrite decide_True by done. f_equal.
    rewrite <- (list_fmap_id l) at 2. apply list_fmap_ext.
    intros j y Hy. rewrite decide_False; [done|]. intros Heq. apply Hx.
    rewrite <- Heq. apply list_elem_of_fmap_2. by eapply list_elem_of_lookup_2.
  - rewrite decide_False.
    + f_equal. by apply IH.
    + intros Heq. apply Hx. rewrite Heq.
      apply list_elem_of_fmap_2. by eapply list_elem_of_lookup_2.
Qed.

(** The identifiers of the ingredients on the screen are pairwise
    distinct. *)
Definition idsDistinct (st : State) : Prop := NoDup (id <$> ingredients st).

Lemma onPendingMealChange_ingredients read_ok st :
  ingredients (onPendingMealChange read_ok st) = ingredients (syncDraft st).
Proof.
  unfold onPendingMealChange.
  by destruct (checkPersistedMealId_draft read_ok (syncDraft st)) as (_ & _ & -> & _).
Qed.

Lemma syncDraft_idsDistinct st : idsDistinct st -> idsDistinct (syncDraft st).
Proof.
  unfold idsDistinct, syncDraft. intros Hst.
  destruct (pendingMeal st) as [pm|]; [|done].
  destruct (analysis pm) as [a|]; [|done].
  destruct (nonEmpty (image_base_64 pm)); simpl; apply formattedIngredients_ids.
Qed.

Section ListRuns.

Variable ToString : jsval -> jsstring.

Lemma step_idsDistinct e st :
  idsDistinct st -> idsDistinct (step ToString e st).
Proof.
  intros Hst. destruct e; simpl; try exact Hst.
  - unfold analyzeImage. destruct (validated base64Image) as [v|]; [|exact Hst].
    destruct result as [a|]; [|by destruct remove_ok].
    unfold idsDistinct. rewrite onPendingMealChange_ingredients.
    apply syncDraft_idsDistinct. by destruct remove_ok.
  - unfold reAnalyzeWithEdits. destruct (imageToUse st) as [image|]; [|exact Hst].
    destruct (validated image) as [v|]; [|exact Hst].
    destruct result as [a|]; [|exact Hst].
    unfold idsDistinct. cbn [ingredients setEditText setShowEditModal].
    rewrite onPendingMealChange_ingredients. by apply syncDraft_idsDistinct.
  - unfold handlePost. destruct (pendingMeal st); [|exact Hst].
    destruct (isPosting st); [exact Hst|]. simpl.
    destruct result as [[mealId|]|]; try exact Hst.
    destruct (nonEmpty mealId); [|exact Hst]. by destruct write_ok.
  - unfold handleUpdate. destruct (postedMealId st) as [mealId|]; [|exact Hst].
    destruct (nonEmpty mealId); [|exact Hst].
    destruct result; [|exact Hst]. by destruct remove_ok.
  - destruct choice; [exact Hst|]. unfold idsDistinct, handleDiscard.
    destruct remove_ok; simpl; constructor.
  - unfold changeEditingIngredient. by destruct (editingIngredient st).
  - unfold changeEditingIngredient. by destruct (editingIngredient st).
  - unfold changeEditingIngredient. by destruct (editingIngredient st).
  - unfold saveIngredientEdit. destruct (editingIngredient st) as [edited|]; [|exact Hst].
    unfold idsDistinct. simpl. by rewrite ids_replace.
  - unfold idsDistinct. simpl. by apply ids_filter.
  - unfold onPanResponderRelease. destruct (PrimFloat.ltb _ _); [|exact Hst].
    unfold idsDistinct. simpl. by apply ids_filter.
Qed.

Lemma run_idsDistinct events st :
  idsDistinct st -> idsDistinct (run ToString events st).
Proof.
  revert st. induction events as [|e events IH]; intros st Hst; [done|].
  apply IH. by apply step_idsDistinct.
Qed.

(** X3. On every screen a run from the first launch reaches, whatever the
    collaborators answer, the identifiers of the ingredients are pairwise
    distinct, and removing the ingredient shown at position [i] (pressing
    its cross, or dragging its card away) deletes that position and nothing
    else. *)
Theorem reachable_ids_distinct (lang : jsstring) (events : list Event) :
  let st := run ToString events (initialState lang) in
  NoDup (id <$> ingredients st) /\
  forall i ing, ingredients st !! i = Some ing ->
    ingredients (removeIngredient (id ing) st) = delete i (ingredients st).
Proof.
  cbv zeta. assert (Hst : idsDistinct (run ToString events (initialState lang))).
  { apply run_idsDistinct. constructor. }
  split; [exact Hst|]. intros i ing Hi.
  unfold removeIngredient. simpl. by apply filter_id_delete.
Qed.

(** X4. On every screen a run from the first launch reaches, tapping the
    ingredient at position [i], typing a name and a calorie value, and
    saving puts the edited ingredient at position [i], leaves every other
    position as it was, and closes the modal; leaving the modal without
    saving changes no ingredient. *)
Theorem edit_and_save_replaces_one (lang : jsstring) (events : list Event)
    (i : nat) (ing : Ingredient) (text : jsstring) (parsed : float) :
  let st := run ToString events (initialState lang) in
  ingredients st !! i = Some ing ->
  let typed :=
    run ToString
      [TapIngredient ing; TypeIngredientName text; TypeIngredientCalories parsed] st in
  let saved := step ToString SaveIngredient typed in
  ingredients saved = <[i := withCalories parsed (withName text ing)]> (ingredients st)
  /\ editingIngredient saved = None /\ showIngredientEdit saved = false
  /\ ingredients (step ToString CloseIngredientModal typed) = ingredients st.
Proof.
  cbv zeta. intros Hi.
  assert (Hst : idsDistinct (run ToString events (initialState lang))).
  { apply run_idsDistinct. constructor. }
  simpl. unfold saveIngredientEdit. simpl.
  split; [|done].
  by apply (replace_id_insert _ i ing (withCalories parsed (withName text ing))).
Qed.

End ListRuns.

Lemma edit_and_save_replaces_one_egg :
  let st :=
    run someToString
      [Capture thousandAs (Fulfilled riceAndEggAnalysis) true true]
      (initialState []) in
  let egg :=
    {| id := str "ing_1"; name := JStr (str "Egg"); calories := zero;
       protein_g := JNum 6%float; carbs_g := zero; fats_g := zero;
       fiber_g := zero; sugar_g := zero; sodium_mg := zero |} in
  let typed :=
    run someToString
      [TapIngredient egg; TypeIngredientName (str "Boiled egg");
       TypeIngredientCalories 78%float] st in
  let saved := step someToString SaveIngredient typed in
  ingredients saved
  = <[1%nat := withCalories 78 (withName (str "Boiled egg") egg)]> (ingredients st)
  /\ editingIngredient saved = None /\ showIngredientEdit saved = false
  /\ ingredients (step someToString CloseIngredientModal typed) = ingredients st.
Proof.
  apply (edit_and_save_replaces_one someToString []
           [Capture thousandAs (Fulfilled riceAndEggAnalysis) true true] 1%nat).
  vm_compute. reflexivity.
Defined.

(** X5. A number typed in the ingredient modal is stored as a number that
    is not NaN: the parsed value itself, or [0] when the text does not
    parse (NaN) or parses to zero. Negative values are stored as typed. *)
Theorem withCalories_number (parsed : float) (ing : Ingredient) :
  exists x, calories (withCalories parsed ing) = JNum x /\
            protein_g (withProtein parsed ing) = JNum x /\
            PrimFloat.is_nan x = false /\
            (x = parsed \/
             x = 0%float /\
             (PrimFloat.is_nan parsed = true \/ PrimFloat.eqb parsed 0 = true)).
Proof.
  unfold withCalories, withProtein, jsor. simpl.
  destruct (PrimFloat.eqb parsed 0) eqn:Hz; simpl.
  - exists 0%float. repeat split; try reflexivity. right. split; [done | by right].
  - destruct (PrimFloat.is_nan parsed) eqn:Hn; simpl.
    + exists 0%float. repeat split; try reflexivity. right. split; [done | by left].
    + exists parsed. repeat split; try done. by left.
Qed.

Example withCalories_garbage :
  calories (withCalories nan (withName (str "Egg") (formatIngredient 0 (RawName [])))) = zero
  /\ calories (withCalories (-5) (formatIngredient 0 (RawName []))) = JNum (-5)%float.
Proof. vm_compute. split; reflexivity. Qed.

(** ** What the services are sent *)

Lemma validated_shaped image v :
  validated image = Some v ->
  base64_shaped v /\ (1000 <= length v)%nat /\ validated v = Some v.
Proof.
  unfold validated.
  destruct (validateAndProcessImage image) as [c|] eqn:Hc; [|done].
  destruct (nonEmpty c) eqn:Hne; [|done]. intros [= <-].
  assert (Hfix : validateAndProcessImage c = Some c).
  { apply validate_fixed. revert Hc. unfold validateAndProcessImage.
    destruct (negb (nonEmpty image) || negb (nonEmpty (trim image))); [done|].
    cbv zeta.
    destruct (regex_test base64Regex (cleanBase64 image)) eqn:Hr; [|done]. simpl.
    destruct (Nat.ltb_spec (length (cleanBase64 image)) 1000); [done|].
    intros [= <-]. split; [by apply base64Regex_shaped | done]. }
  pose proof Hfix as Hs. apply validate_fixed in Hs as [Hs Hl].
  split; [done|]. split; [done|]. by rewrite Hfix, Hne.
Qed.

Lemma currentLanguage_nonEmpty st : currentLanguage st <> [].
Proof.
  unfold currentLanguage. by destruct (language st) as [|c l] eqn:Hl.
Qed.

(** A call is well formed when its image is the bare base64 payload of at
    least 1000 units, its language is not empty, and its meal identifier is
    not empty. *)
Definition wellFormedCall (d : Dispatched) : Prop :=
  match d with
  | AnalyzeMeal image _ lang _ =>
      base64_shaped image /\ (1000 <= length image)%nat /\ lang <> []
  | UpdateMeal meal_id _ _ => meal_id <> []
  | PostMeal _ | ClearPendingMeal => True
  end.

(** The image kept for re-analysis is empty or valid as it is, and it is
    not empty while a meal is pending; an identifier in memory is not empty
    and comes with a pending meal. *)
Definition coherent (st : State) : Prop :=
  (originalImageBase64 st = [] \/
   validated (originalImageBase64 st) = Some (originalImageBase64 st)) /\
  (is_Some (pendingMeal st) -> nonEmpty (originalImageBase64 st) = true) /\
  (forall mealId, postedMealId st = Some mealId ->
     nonEmpty mealId = true /\ is_Some (pendingMeal st)).

Lemma checkPersistedMealId_coherent ok st :
  coherent st -> coherent (checkPersistedMealId ok st).
Proof.
  intros Hst. unfold checkPersistedMealId.
  destruct (pendingMeal st) as [pm|] eqn:Hp; [|done].
  destruct ok; [|done].
  destruct (storage st !! "postedMealId") as [saved|]; [|done].
  destruct (nonEmpty saved) eqn:Hs; [|done].
  destruct Hst as (H1 & H2 & H3).
  split; [exact H1|]. split; [exact H2|]. simpl.
  intros mealId [= <-]. by rewrite Hp.
Qed.

Lemma analysed_coherent v a read_ok st :
  validated v = Some v -> postedMealId st = None -> nonEmpty v = true ->
  coherent (onPendingMealChange read_ok (analyzeMeal_fulfilled v a st)).
Proof.
  intros Hv Hid Hne. apply checkPersistedMealId_coherent.
  unfold syncDraft. simpl. rewrite Hne.
  split; [by right|]. split; [done|]. simpl. by rewrite Hid.
Qed.

Lemma onPendingMealChange_dispatched read_ok st :
  dispatched (onPendingMealChange read_ok st) = dispatched st.
Proof.
  unfold onPendingMealChange.
  destruct (syncDraft_record st) as (_ & _ & <- & _).
  unfold checkPersistedMealId. destruct (pendingMeal (syncDraft st)); [|done].
  destruct read_ok; [|done].
  destruct (storage (syncDraft st) !! "postedMealId") as [saved|]; [|done].
  by destruct (nonEmpty saved).
Qed.

Section Calls.

Variable ToString : jsval -> jsstring.

Lemma step_coherent e st : coherent st -> coherent (step ToString e st).
Proof.
  intros Hst. pose proof Hst as (Himg & Hpend & Hid).
  assert (Hreset : forall st', originalImageBase64 st' = [] ->
            pendingMeal st' = None -> postedMealId st' = None -> coherent st').
  { intros st' H1 H2 H3. split; [by left|]. rewrite H2, H3.
    split; [by intros [? ?] | done]. }
  destruct e; simpl; try exact Hst.
  - unfold analyzeImage. destruct (validated base64Image) as [v|] eqn:Hv; [|exact Hst].
    apply validated_shaped in Hv as (_ & Hl & Hv).
    assert (Hne : nonEmpty v = true) by (destruct v; [simpl in Hl; lia | done]).
    destruct result as [a|].
    + apply analysed_coherent; [done | by destruct remove_ok | done].
    + destruct remove_ok; (split; [by right | split; [done | done]]).
  - unfold reAnalyzeWithEdits.
    destruct (imageToUse st) as [image|] eqn:Himage; [|exact Hst].
    destruct (validated image) as [v|] eqn:Hv; [|exact Hst].
    destruct result as [a|]; [|exact Hst].
    pose proof (validated_shaped _ _ Hv) as (_ & Hl & Hvv).
    assert (Hne : nonEmpty v = true) by (destruct v; [simpl in Hl; lia | done]).
    set (called := analyzeMeal_fulfilled v a _).
    assert (Hc : coherent (checkPersistedMealId read_ok (syncDraft called))).
    { apply checkPersistedMealId_coherent. unfold syncDraft. simpl. rewrite Hne.
      split; [by right|]. split; [done|]. simpl.
      intros mealId Hm. destruct (Hid mealId Hm) as [Hm1 _]. split; [done | eauto]. }
    exact Hc.
  - unfold handlePost. destruct (pendingMeal st) as [pm|] eqn:Hp; [|exact Hst].
    destruct (isPosting st); [exact Hst|]. simpl.
    destruct result as [[mealId|]|]; try exact Hst.
    destruct (nonEmpty mealId) eqn:Hne; [|exact Hst].
    destruct write_ok;
      (split; [exact Himg|]; split; [intros _; apply Hpend; eauto|]; simpl;
       intros m [= <-]; rewrite Hp; eauto).
  - unfold handleUpdate. destruct (postedMealId st) as [mealId|]; [|exact Hst].
    destruct (nonEmpty mealId); [|exact Hst].
    destruct result; [|exact Hst]. by destruct remove_ok; apply Hreset.
  - destruct choice; [exact Hst|]. unfold handleDiscard.
    by destruct remove_ok; apply Hreset.
  - unfold changeEditingIngredient. by destruct (editingIngredient st).
  - unfold changeEditingIngredient. by destruct (editingIngredient st).
  - unfold changeEditingIngredient. by destruct (editingIngredient st).
  - unfold saveIngredientEdit. by destruct (editingIngredient st).
  - unfold onPanResponderRelease. by destruct (PrimFloat.ltb _ _).
Qed.

Lemma run_coherent events st : coherent st -> coherent (run ToString events st).
Proof.
  revert st. induction events as [|e events IH]; intros st Hst; [done|].
  apply IH. by apply step_coherent.
Qed.

Lemma initialState_coherent lang : coherent (initialState lang).
Proof. split; [by left|]. split; [by intros [? ?] | done]. Qed.

Lemma step_wellFormed e st :
  coherent st -> Forall wellFormedCall (dispatched st) ->
  Forall wellFormedCall (dispatched (step ToString e st)).
Proof.
  intros (_ & _ & Hid) Hst. destruct e; simpl; try exact Hst.
  - unfold analyzeImage. destruct (validated base64Image) as [v|] eqn:Hv; [|exact Hst].
    apply validated_shaped in Hv as (Hs & Hl & _).
    assert (Hcall : forall result, Forall wellFormedCall
              (AnalyzeMeal v None (currentLanguage (beforeAnalysis v remove_ok st))
                 result :: dispatched st)).
    { intros r. constructor; [|done]. repeat split; try done.
      apply currentLanguage_nonEmpty. }
    destruct result as [a|].
    + rewrite onPendingMealChange_dispatched. destruct remove_ok; apply Hcall.
    + destruct remove_ok; apply Hcall.
  - unfold reAnalyzeWithEdits.
    destruct (imageToUse st) as [image|]; [|exact Hst].
    destruct (validated image) as [v|] eqn:Hv; [|exact Hst].
    apply validated_shaped in Hv as (Hs & Hl & _).
    assert (Hcall : forall result, Forall wellFormedCall
              (AnalyzeMeal v (Some (reAnalyzeText ToString st)) (currentLanguage st)
                 result :: dispatched st)).
    { intros r. constructor; [|done]. repeat split; try done.
      apply currentLanguage_nonEmpty. }
    destruct result as [a|]; [|apply Hcall].
    cbn [dispatched setEditText setShowEditModal].
    rewrite onPendingMealChange_dispatched. apply Hcall.
  - unfold handlePost. destruct (pendingMeal st); [|exact Hst].
    destruct (isPosting st); [exact Hst|]. simpl.
    destruct result as [[mealId|]|]; simpl; try (by constructor).
    destruct (nonEmpty mealId); [|by constructor].
    destruct write_ok; by constructor.
  - unfold handleUpdate. destruct (postedMealId st) as [mealId|] eqn:Hp; [|exact Hst].
    destruct (nonEmpty mealId) eqn:Hne; [|exact Hst].
    assert (mealId <> []) by (by destruct mealId).
    destruct result; simpl; [destruct remove_ok; simpl|]; by repeat constructor.
  - destruct choice; [exact Hst|]. unfold handleDiscard.
    destruct remove_ok; by constructor.
  - unfold changeEditingIngredient. by destruct (editingIngredient st).
  - unfold changeEditingIngredient. by destruct (editingIngredient st).
  - unfold changeEditingIngredient. by destruct (editingIngredient st).
  - unfold saveIngredientEdit. by destruct (editingIngredient st).
  - unfold onPanResponderRelease. by destruct (PrimFloat.ltb _ _).
Qed.

(** X6. Whatever happens on the screen from the first launch on, and
    whatever the collaborators answer, every [analyzeMeal] it dispatches
    carries a bare base64 payload of at least 1000 units (no data-URI
    prefix, no character outside the alphabet) and a language that is not
    empty, and every [updateMeal] carries a meal identifier that is not
    empty. *)
Theorem dispatched_calls_wellFormed (lang : jsstring) (events : list Event) :
  Forall wellFormedCall (dispatched (run ToString events (initialState lang))).
Proof.
  assert (H : forall st, coherent st -> Forall wellFormedCall (dispatched st) ->
            Forall wellFormedCall (dispatched (run ToString events st))).
  { induction events as [|e events' IH]; intros st Hc Hw; [done|].
    apply IH; [by apply step_coherent | by apply step_wellFormed]. }
  apply H; [apply initialState_coherent | constructor].
Qed.

(** X7. On every screen a run from the first launch reaches, an identifier
    in memory is never the empty string and comes with a pending meal; and
    while a meal is pending, [reAnalyzeWithEdits] finds the image it needs:
    it shows neither "No image available for re-analysis." nor "Invalid
    image data.", and dispatches one [analyzeMeal] with the image kept in
    memory and the correction text. *)
Theorem reachable_coherent (lang : jsstring) (events : list Event) :
  let st := run ToString events (initialState lang) in
  (forall mealId, postedMealId st = Some mealId ->
     mealId <> [] /\ is_Some (pendingMeal st)) /\
  (is_Some (pendingMeal st) ->
     reAnalysisImage st = Some (originalImageBase64 st) /\
     forall result read_ok,
       dispatched (reAnalyzeWithEdits ToString result read_ok st)
       = AnalyzeMeal (originalImageBase64 st) (Some (reAnalyzeText ToString st))
           (currentLanguage st) result :: dispatched st).
Proof.
  cbv zeta.
  destruct (run_coherent events (initialState lang) (initialState_coherent lang))
    as (Himg & Hpend & Hid).
  set (st := run ToString events (initialState lang)) in *. split.
  - intros mealId Hm. destruct (Hid mealId Hm) as [Hne Hp].
    split; [by destruct mealId | done].
  - intros Hp. specialize (Hpend Hp).
    assert (Hre : reAnalysisImage st = Some (originalImageBase64 st)).
    { unfold reAnalysisImage, imageToUse. rewrite Hpend.
      destruct Himg as [Hnil|Hv]; [by rewrite Hnil in Hpend | done]. }
    split; [exact Hre|]. intros result read_ok.
    unfold reAnalysisImage in Hre. unfold reAnalyzeWithEdits.
    destruct (imageToUse st) as [image|]; [|done]. rewrite Hre.
    destruct result as [a|]; [|done].
    cbn [dispatched setEditText setShowEditModal].
    by rewrite onPendingMealChange_dispatched.
Qed.

End Calls.

(** ** Update, and the record across a remount *)

Section UpdateProperties.

Variable ToString : jsval -> jsstring.

(** X8. With an identifier in memory, a fulfilled update sends the
    correction text built from the draft as it stands, then empties the
    slot, the identifier, the kept image and the edit text, closes the
    modal, and removes the durable record when the removal resolves; the
    meal name, the description and the ingredient list on the screen are
    not cleared (a discard clears them). A rejected update changes nothing
    but the alert and the log: the identifier stays. *)
Theorem handleUpdate_with_mealId (mealId : jsstring) (remove_ok : bool)
    (st : State) :
  postedMealId st = Some mealId -> nonEmpty mealId = true ->
  (let st' := handleUpdate ToString (Fulfilled ()) remove_ok st in
   dispatched st'
   = ClearPendingMeal
       :: UpdateMeal mealId (updateText ToString st) (Fulfilled ())
       :: dispatched st /\
   pendingMeal st' = None /\ postedMealId st' = None /\
   originalImageBase64 st' = [] /\ editText st' = [] /\
   showEditModal st' = false /\
   storage st' !! "postedMealId"
   = (if remove_ok then None else storage st !! "postedMealId") /\
   mealName st' = mealName st /\ mealDescription st' = mealDescription st /\
   ingredients st' = ingredients st) /\
  handleUpdate ToString Rejected remove_ok st
  = alert "Error" "Failed to update meal."
      (dispatch (UpdateMeal mealId (updateText ToString st) Rejected) st).
Proof.
  intros Hid Hne. unfold handleUpdate. rewrite Hid, Hne. split; [|done].
  cbv zeta. unfold clearMealId.
  destruct remove_ok; simpl; repeat split. apply lookup_delete_eq.
Qed.

End UpdateProperties.

Lemma handleUpdate_with_mealId_42 :
  let st :=
    run someToString
      [ Capture thousandAs (Fulfilled riceAndEggAnalysis) true true;
        Post (Fulfilled (Some (str "42"))) true;
        TypeMealName (str "My lunch") ]
      (initialState []) in
  let st' := handleUpdate someToString (Fulfilled ()) true st in
  pendingMeal st' = None /\ postedMealId st' = None /\
  mealName st' = str "My lunch" /\
  ingredients st' = formattedIngredients riceAndEgg.
Proof.
  pose proof (handleUpdate_with_mealId someToString (str "42") true
    (run someToString
      [ Capture thousandAs (Fulfilled riceAndEggAnalysis) true true;
        Post (Fulfilled (Some (str "42"))) true;
        TypeMealName (str "My lunch") ]
      (initialState [])) eq_refl eq_refl) as [(_ & H1 & H2 & _ & _ & _ & _ & H3 & _ & H4) _].
  cbv zeta. rewrite H1, H2, H3, H4. repeat split.
Defined.

(** X9. What [saveMealId] has written is what the persisted-identifier
    effect brings back: after a save that resolves, the effect sets the
    identifier in memory to the saved one, whatever it was (a remount
    starts from [null]), provided a meal is pending and the read resolves;
    after [clearMealId] resolves, or when the read is rejected, or with no
    pending meal, the effect leaves the identifier in memory alone. *)
Theorem persisted_mealId_round_trip (mealId : jsstring) (inMemory : option jsstring)
    (st : State) :
  (is_Some (pendingMeal st) -> nonEmpty mealId = true ->
   postedMealId
     (checkPersistedMealId true (setPostedMealId inMemory (saveMealId true mealId st)))
   = Some mealId) /\
  postedMealId
    (checkPersistedMealId true (setPostedMealId inMemory (clearMealId true st)))
  = inMemory /\
  postedMealId
    (checkPersistedMealId false (setPostedMealId inMemory (saveMealId true mealId st)))
  = inMemory /\
  (pendingMeal st = None ->
   postedMealId
     (checkPersistedMealId true (setPostedMealId inMemory (saveMealId true mealId st)))
   = inMemory).
Proof.
  unfold checkPersistedMealId, saveMealId, clearMealId. simpl.
  split; [|split; [|split]].
  - intros [pm ->] Hne. by rewrite lookup_insert_eq, Hne.
  - destruct (pendingMeal st); [|done]. by rewrite lookup_delete_eq.
  - by destruct (pendingMeal st).
  - by intros ->.
Qed.

(** ** Edits are local *)

(** Typing in a field, opening or closing a modal, tapping, saving or
    removing an ingredient, releasing a card. *)
Definition isEdit (e : Event) : bool :=
  match e with
  | Capture _ _ _ _ | ReAnalyze _ _ | Post _ _ | Update _ _ | PressDiscard _ _ => false
  | _ => true
  end.

(** X10. An edit of the draft stays on the screen: it dispatches nothing,
    shows no alert, reads and writes no durable record, and leaves the
    pending meal, the posted identifier and the kept image as they are. *)
Theorem edits_are_local (ToString : jsval -> jsstring) (e : Event) (st : State) :
  isEdit e = true ->
  dispatched (step ToString e st) = dispatched st /\
  alerts (step ToString e st) = alerts st /\
  storage (step ToString e st) = storage st /\
  pendingMeal (step ToString e st) = pendingMeal st /\
  postedMealId (step ToString e st) = postedMealId st /\
  originalImageBase64 (step ToString e st) = originalImageBase64 st.
Proof.
  intros He. destruct e; try discriminate He; simpl; try done.
  - unfold changeEditingIngredient. by destruct (editingIngredient st).
  - unfold changeEditingIngredient. by destruct (editingIngredient st).
  - unfold changeEditingIngredient. by destruct (editingIngredient st).
  - unfold saveIngredientEdit. by destruct (editingIngredient st).
  - unfold onPanResponderRelease. by destruct (PrimFloat.ltb _ _).
Qed.

Lemma edits_are_local_release :
  let st :=
    run someToString
      [Capture thousandAs (Fulfilled riceAndEggAnalysis) true true]
      (initialState []) in
  let e := Release 300 0 (formatIngredient 0 (RawName (str "Rice"))) in
  dispatched (step someToString e st) = dispatched st /\
  alerts (step someToString e st) = alerts st /\
  storage (step someToString e st) = storage st /\
  pendingMeal (step someToString e st) = pendingMeal st /\
  postedMealId (step someToString e st) = postedMealId st /\
  originalImageBase64 (step someToString e st) = originalImageBase64 st.
Proof.
  apply (edits_are_local someToString
           (Release 300 0 (formatIngredient 0 (RawName (str "Rice"))))).
  reflexivity.
Defined.

(** ** The order of the calls on the rendered screen *)

(** [const isPosted = !!postedMealId] *)
Definition isPosted (st : State) : bool :=
  match postedMealId st with Some mealId => nonEmpty mealId | None => false end.

(** [if (pendingMeal)]: the analysis view is rendered, the home view
    otherwise. *)
Definition analysisView (st : State) : bool :=
  match pendingMeal st with Some _ => true | None => false end.

(** What the rendered view lets the user do. The capture buttons are on
    the home view (the camera opens from there); everything else is on the
    analysis view, where the primary button is "Save Meal" ([handlePost])
    while the meal is not posted and "Update" ([handleUpdate]) once it is.
    Modals and the flags that disable buttons during a call only take
    events away, and are left out. *)
Definition offered (e : Event) (st : State) : bool :=
  match e with
  | Capture _ _ _ _ => negb (analysisView st)
  | Post _ _ => analysisView st && negb (isPosted st)
  | Update _ _ => analysisView st && isPosted st
  | _ => analysisView st
  end.

(** Each call follows the ones before it as the life cycle wants: a create
    and a new capture only when no create has succeeded since the last
    reset, an update only with the identifier of that create. *)
Fixpoint inOrder (log : list Dispatched) : Prop :=
  match log with
  | [] => True
  | d :: rest =>
      match d with
      | PostMeal _ => createdMealId rest = None
      | AnalyzeMeal _ None _ _ => createdMealId rest = None
      | UpdateMeal meal_id _ _ => createdMealId rest = Some meal_id
      | _ => True
      end /\ inOrder rest
  end.

Section Offered.

Variable ToString : jsval -> jsstring.

(** Every event of the run is offered by the view it happens on. *)
Fixpoint offeredRun (events : list Event) (st : State) : bool :=
  match events with
  | [] => true
  | e :: rest => offered e st && offeredRun rest (step ToString e st)
  end.

Lemma step_inOrder e st :
  offered e st = true -> inSync st -> coherent st ->
  inOrder (dispatched st) -> inOrder (dispatched (step ToString e st)).
Proof.
  intros Hoff [Hid Hrec] (_ & _ & Hco) Hlog.
  assert (Hnone : isPosted st = false -> createdMealId (dispatched st) = None).
  { unfold isPosted. rewrite <- Hid. destruct (postedMealId st) as [m|]; [|done].
    intros Hm. destruct (Hco m eq_refl) as [Hne _]. congruence. }
  destruct e; simpl in *; try exact Hlog.
  - unfold analyzeImage. destruct (validated base64Image) as [v|]; [|exact Hlog].
    assert (Hfresh : createdMealId (dispatched st) = None).
    { apply Hnone. unfold isPosted. destruct (postedMealId st) as [m|]; [|done].
      destruct (Hco m eq_refl) as [_ [pm Hpm]]. unfold analysisView in Hoff.
      by rewrite Hpm in Hoff. }
    destruct result as [a|].
    + rewrite onPendingMealChange_dispatched. by destruct remove_ok.
    + by destruct remove_ok.
  - unfold reAnalyzeWithEdits.
    destruct (imageToUse st) as [image|]; [|exact Hlog].
    destruct (validated image) as [v|]; [|exact Hlog].
    destruct result as [a|]; [|by split].
    cbn [dispatched setEditText setShowEditModal].
    rewrite onPendingMealChange_dispatched. by split.
  - apply andb_prop in Hoff as [_ Hnp]. apply negb_true_iff, Hnone in Hnp.
    unfold handlePost. destruct (pendingMeal st); [|exact Hlog].
    destruct (isPosting st); [exact Hlog|]. simpl.
    destruct result as [[mealId|]|]; simpl; try (by split).
    destruct (nonEmpty mealId); [|by split]. by destruct write_ok.
  - unfold handleUpdate. destruct (postedMealId st) as [mealId|] eqn:Hp; [|exact Hlog].
    destruct (nonEmpty mealId); [|exact Hlog].
    destruct result; simpl; [by destruct remove_ok|by split].
  - destruct choice; [exact Hlog|]. unfold handleDiscard. by destruct remove_ok.
  - unfold changeEditingIngredient. by destruct (editingIngredient st).
  - unfold changeEditingIngredient. by destruct (editingIngredient st).
  - unfold changeEditingIngredient. by destruct (editingIngredient st).
  - unfold saveIngredientEdit. by destruct (editingIngredient st).
  - unfold onPanResponderRelease. by destruct (PrimFloat.ltb _ _).
Qed.

(** X11. Along a run from the first launch in which every event is offered
    by the rendered view and AsyncStorage resolves every write and removal,
    [postMeal] is dispatched only for a pending meal that no create has
    given an identifier yet (so a meal is created successfully at most
    once between two resets), a new capture never starts over a posted
    meal, and every [updateMeal] carries the identifier that create
    returned. *)
Theorem offered_run_inOrder (lang : jsstring) (events : list Event) :
  forallb storeResolves events = true ->
  offeredRun events (initialState lang) = true ->
  inOrder (dispatched (run ToString events (initialState lang))).
Proof.
  assert (H : forall st, forallb storeResolves events = true ->
            offeredRun events st = true -> inSync st -> coherent st ->
            inOrder (dispatched st) ->
            inOrder (dispatched (run ToString events st))).
  { induction events as [|e events' IH]; intros st Hok Hoff Hs Hc Hl; [done|].
    simpl in Hok, Hoff. apply andb_prop in Hok as [He Hes].
    apply andb_prop in Hoff as [Ho Hos].
    apply IH; [done | done | by apply step_inSync | by apply step_coherent
              | by apply step_inOrder]. }
  intros Hok Hoff. apply H; [done | done | by split | apply initialState_coherent | done].
Qed.

End Offered.

Lemma offered_run_inOrder_lifecycle :
  inOrder
    (dispatched
       (run someToString
          [ Capture thousandAs (Fulfilled riceAndEggAnalysis) true true;
            Post Rejected true;
            Post (Fulfilled (Some (str "42"))) true;
            ReAnalyze (Fulfilled riceAndEggAnalysis) true;
            Update (Fulfilled ()) true;
            Capture thousandAs (Fulfilled riceAndEggAnalysis) true true ]
          (initialState []))).
Proof.
  apply (offered_run_inOrder someToString []); vm_compute; reflexivity.
Defined.

(** Without the view, [handlePost] itself would post a posted meal again:
    it tests the pending meal and the posting flag, not the identifier. *)
Example handlePost_twice :
  dispatched
    (run someToString
       [ Capture thousandAs (Fulfilled riceAndEggAnalysis) true true;
         Post (Fulfilled (Some (str "42"))) true;
         Post (Fulfilled (Some (str "43"))) true ]
       (initialState []))
  = [ PostMeal (Fulfilled (Some (str "43")));
      PostMeal (Fulfilled (Some (str "42")));
      AnalyzeMeal thousandAs None (str "en") (Fulfilled riceAndEggAnalysis) ].
Proof. vm_compute. reflexivity. Qed.

(** ** The capture providers *)

(** An asset of the image picker or a photo of the camera; the screen reads
    its [base64] only, which may be missing. *)
Record Captured : Type := { base64 : option jsstring }.

(** The result of [ImagePicker.launchImageLibraryAsync]. *)
Record PickerResult : Type := {
  canceled : bool;
  assets : option (list Captured);
}.

(** [pickImage]; a rejection of the picker is caught. *)
Definition pickImage (picked : Settled PickerResult) (result : Settled Analysis)
    (remove_ok read_ok : bool) (st : State) : State :=
  match picked with
  | Rejected => alert "Error" "Failed to pick image." st
  | Fulfilled r =>
      if negb (canceled r) then
        match assets r with
        | Some (asset :: _) =>
            match base64 asset with
            | Some data =>
                if nonEmpty data
                then analyzeImage data result remove_ok read_ok st
                else alert "Error" "No image data available." st
            | None => alert "Error" "No image data available." st
            end
        | Some [] | None => st
        end
      else st
  end.

(** [takePicture]. [cameraMounted] is [cameraRef.current], [isAnalyzing]
    the flag of the meal slice, [taken] the answer of [takePictureAsync];
    the cell [showCamera] goes in and comes out with the state. *)
Definition takePicture (cameraMounted isAnalyzing : bool)
    (taken : Settled (option Captured)) (result : Settled Analysis)
    (remove_ok read_ok : bool) (showCamera : bool) (st : State) : bool * State :=
  if cameraMounted && negb isAnalyzing then
    match taken with
    | Fulfilled (Some photo) =>
        match base64 photo with
        | Some data =>
            if nonEmpty data
            then (false, analyzeImage data result remove_ok read_ok st)
            else (showCamera, alert "Error" "Failed to capture image." st)
        | None => (showCamera, alert "Error" "Failed to capture image." st)
        end
    | Fulfilled None | Rejected =>
        (showCamera, alert "Error" "Failed to capture image." st)
    end
  else (showCamera, st).

Lemma validated_nonEmpty data v : validated data = Some v -> nonEmpty data = true.
Proof. destruct data; [discriminate | done]. Qed.

(** X12. [pickImage] is decided by the first asset of a pick that was not
    cancelled. When the data of that asset passes the validation, the pick
    is [analyzeImage] of the data, and what it dispatches is one
    [analyzeMeal] with the validated payload. When the data does not pass
    (or is missing), when the picker fails, nothing is dispatched and the
    state is the one before with exactly one alert; a cancelled pick and an
    empty selection leave the state exactly as it was. The assets after the
    first are never read. *)
Theorem pickImage_effect (picked : Settled PickerResult) (result : Settled Analysis)
    (remove_ok read_ok : bool) (st : State) :
  let st' := pickImage picked result remove_ok read_ok st in
  (forall r asset others data v,
     picked = Fulfilled r -> canceled r = false ->
     assets r = Some (asset :: others) -> base64 asset = Some data ->
     validated data = Some v ->
     st' = analyzeImage data result remove_ok read_ok st /\
     dispatched st'
     = AnalyzeMeal v None (currentLanguage st) result :: dispatched st) /\
  (forall r asset others data,
     picked = Fulfilled r -> canceled r = false ->
     assets r = Some (asset :: others) -> base64 asset = Some data ->
     validated data = None ->
     st' = alert "Error"
             (if nonEmpty data then "Invalid image. Please try again."
              else "No image data available.") st) /\
  (forall r asset others,
     picked = Fulfilled r -> canceled r = false ->
     assets r = Some (asset :: others) -> base64 asset = None ->
     st' = alert "Error" "No image data available." st) /\
  (forall r, picked = Fulfilled r ->
     canceled r = true \/ assets r = None \/ assets r = Some [] -> st' = st) /\
  (picked = Rejected -> st' = alert "Error" "Failed to pick image." st) /\
  (forall r asset others,
     picked = Fulfilled r -> assets r = Some (asset :: others) ->
     st' = pickImage
             (Fulfilled {| canceled := canceled r; assets := Some [asset] |})
             result remove_ok read_ok st).
Proof.
  cbv zeta. unfold pickImage. repeat apply conj.
  - intros r asset others data v -> -> -> -> Hv. simpl.
    rewrite (validated_nonEmpty _ _ Hv). split; [done|].
    unfold analyzeImage. rewrite Hv. destruct result as [a|].
    + rewrite onPendingMealChange_dispatched. by destruct remove_ok.
    + by destruct remove_ok.
  - intros r asset others data -> -> -> -> Hv. simpl.
    destruct (nonEmpty data); [|done]. unfold analyzeImage. by rewrite Hv.
  - by intros r asset others -> -> -> ->.
  - intros r -> [-> | [-> | ->]]; [done | |]; by destruct (canceled r).
  - by intros ->.
  - by intros r asset others -> ->.
Qed.

(** A pick of two assets, the first of which is valid: the second is not
    used, and one call is dispatched. *)
Example pickImage_first_asset :
  dispatched
    (pickImage
       (Fulfilled {| canceled := false;
                     assets := Some [ {| base64 := Some (str "data:image/png;base64," ++ thousandAs) |};
                                      {| base64 := Some (str "short") |} ] |})
       (Fulfilled riceAndEggAnalysis) true true (initialState []))
  = [AnalyzeMeal thousandAs None (str "en") (Fulfilled riceAndEggAnalysis)].
Proof. vm_compute. reflexivity. Qed.

(** X13. Without a mounted camera, or while an analysis is running,
    [takePicture] does nothing. Otherwise, when the photo carries data, it
    closes the camera (whether or not the validation then accepts the
    data) and does to the state what [analyzeImage] of the data does, which
    is also what [pickImage] does for a selection of that photo; when the
    capture fails or the photo carries no data, the camera stays as it is
    and the state is the one before with the one alert "Failed to capture
    image.". *)
Theorem takePicture_effect (cameraMounted isAnalyzing : bool)
    (taken : Settled (option Captured)) (result : Settled Analysis)
    (remove_ok read_ok showCamera : bool) (st : State) :
  let out :=
    takePicture cameraMounted isAnalyzing taken result remove_ok read_ok
      showCamera st in
  (cameraMounted = false \/ isAnalyzing = true -> out = (showCamera, st)) /\
  (cameraMounted = true -> isAnalyzing = false ->
   (forall photo data,
      taken = Fulfilled (Some photo) -> base64 photo = Some data ->
      nonEmpty data = true ->
      out = (false, analyzeImage data result remove_ok read_ok st) /\
      out.2 = pickImage
                (Fulfilled {| canceled := false; assets := Some [photo] |})
                result remove_ok read_ok st) /\
   (taken = Rejected \/ taken = Fulfilled None \/
    (exists photo, taken = Fulfilled (Some photo) /\
       (base64 photo = None \/ base64 photo = Some [])) ->
    out = (showCamera, alert "Error" "Failed to capture image." st))).
Proof.
  cbv zeta. unfold takePicture. split.
  - intros [-> | ->]; [done | by destruct cameraMounted].
  - intros -> ->. simpl. split.
    + intros photo data -> Hd Hne. unfold pickImage. simpl.
      by rewrite Hd, Hne.
    + intros [-> | [-> | (photo & -> & [-> | ->])]]; done.
Qed.

(** A photo that the validation rejects: the camera is closed all the
    same, and the alert is the one of [analyzeImage]. *)
Example takePicture_invalid_photo :
  takePicture true false (Fulfilled (Some {| base64 := Some (str "short") |}))
    (Fulfilled riceAndEggAnalysis) true true true (initialState [])
  = (false, alert "Error" "Invalid image. Please try again." (initialState [])).
Proof. vm_compute. reflexivity. Qed.

(** ** Running the effects again, and what outlives a meal *)

(** X14. The two effects that follow a change of the pending meal can run
    again on the state they produced without changing it (with the same
    answer of the read of the durable record). *)
Theorem onPendingMealChange_idempotent (read_ok : bool) (st : State) :
  onPendingMealChange read_ok (onPendingMealChange read_ok st)
  = onPendingMealChange read_ok st.
Proof.
  unfold onPendingMealChange, checkPersistedMealId, syncDraft.
  destruct st as [pm posting modal text mname mdesc ings posted orig ingModal
                   editing lang store shown log].
  simpl. destruct pm as [[image [a|]]|]; simpl; [| |done].
  - destruct (nonEmpty image) eqn:Hi; simpl; destruct read_ok; simpl; rewrite ?Hi;
      simpl; try reflexivity;
      destruct (store !! "postedMealId") as [saved|] eqn:Hs; simpl; rewrite ?Hi;
      simpl; rewrite ?Hs; try reflexivity;
      destruct (nonEmpty saved) eqn:Hn; simpl; rewrite ?Hi; simpl; rewrite ?Hs, ?Hn;
      reflexivity.
  - destruct read_ok; simpl; try reflexivity.
    destruct (store !! "postedMealId") as [saved|] eqn:Hs; simpl; rewrite ?Hs;
      try reflexivity.
    destruct (nonEmpty saved) eqn:Hn; simpl; rewrite ?Hs, ?Hn; reflexivity.
Qed.

(** The events that can change the free-text notes of the edit modal:
    typing them, a fulfilled re-analysis, a fulfilled update. *)
Definition keepsNotes (e : Event) : bool :=
  match e with
  | TypeEditText _ | ReAnalyze (Fulfilled _) _ | Update (Fulfilled _) _ => false
  | _ => true
  end.

Section Notes.

Variable ToString : jsval -> jsstring.

Lemma step_keepsNotes e st :
  keepsNotes e = true -> editText (step ToString e st) = editText st.
Proof.
  intros He. destruct e; try discriminate He; simpl; try done.
  - unfold analyzeImage. destruct (validated base64Image) as [v|]; [|done].
    destruct result as [a|]; [|by destruct remove_ok].
    unfold onPendingMealChange, checkPersistedMealId, syncDraft. simpl.
    destruct (nonEmpty v); simpl; destruct read_ok, remove_ok; simpl;
      repeat match goal with
             | |- context [match ?x with _ => _ end] => destruct x; simpl
             end; reflexivity.
  - destruct result as [a|]; [discriminate He|]. unfold reAnalyzeWithEdits.
    destruct (imageToUse st) as [image|]; [|done].
    by destruct (validated image).
  - unfold handlePost. destruct (pendingMeal st); [|done].
    destruct (isPosting st); [done|]. simpl.
    destruct result as [[mealId|]|]; try done.
    destruct (nonEmpty mealId); [|done]. by destruct write_ok.
  - destruct result; [discriminate He|]. unfold handleUpdate.
    destruct (postedMealId st) as [mealId|]; [|done]. by destruct (nonEmpty mealId).
  - destruct choice; [done|]. unfold handleDiscard. by destruct remove_ok.
  - unfold changeEditingIngredient. by destruct (editingIngredient st).
  - unfold changeEditingIngredient. by destruct (editingIngredient st).
  - unfold changeEditingIngredient. by destruct (editingIngredient st).
  - unfold saveIngredientEdit. by destruct (editingIngredient st).
  - unfold onPanResponderRelease. by destruct (PrimFloat.ltb _ _).
Qed.

(** X15. The notes typed in the edit modal are cleared by a fulfilled
    re-analysis or update only: they outlive closing the modal, a rejected
    call, a post, a discard and the capture of a new meal, and so enter the
    correction text of whatever meal is on the screen next. *)
Theorem notes_outlive_the_meal (events : list Event) (st : State) :
  forallb keepsNotes events = true ->
  editText (run ToString events st) = editText st /\
  additionalNotes (run ToString events st) = additionalNotes st.
Proof.
  revert st. induction events as [|e events IH]; intros st Hk; [done|].
  simpl in Hk. apply andb_prop in Hk as [He Hes].
  destruct (IH (step ToString e st) Hes) as [H1 H2].
  pose proof (step_keepsNotes e st He) as H3. simpl.
  split; [by rewrite H1|]. rewrite H2. unfold additionalNotes. by rewrite H3.
Qed.

End Notes.

Lemma notes_outlive_discard_and_capture :
  let typed :=
    run someToString
      [ Capture thousandAs (Fulfilled riceAndEggAnalysis) true true;
        OpenEditModal; TypeEditText (str "no rice") ]
      (initialState []) in
  let next :=
    [ CloseEditModal; PressDiscard Discard true;
      Capture (thousandAs ++ str "==") (Fulfilled riceAndEggAnalysis) true true ] in
  editText (run someToString next typed) = editText typed /\
  additionalNotes (run someToString next typed) = additionalNotes typed.
Proof.
  apply (notes_outlive_the_meal someToString).
  reflexivity.
Defined.

(** ** The threshold and the exact displacement *)

(** The number a double stands for. *)
Inductive Exact : Type :=
| Finite (q : QArith_base.Q)
| Infinite
| NotANumber.

Definition exactValue (x : float) : Exact :=
  match FloatOps.Prim2SF x with
  | SpecFloat.S754_zero _ => Finite (QArith_base.inject_Z 0)
  | SpecFloat.S754_finite negative m e =>
      Finite (QArith_base.Qmult
                (QArith_base.inject_Z (if negative then Z.neg m else Z.pos m))
                (QArith_base.Qpower (QArith_base.inject_Z 2) e))
  | SpecFloat.S754_infinity _ => Infinite
  | SpecFloat.S754_nan => NotANumber
  end.

(** The Euclidean displacement of [(dx, dy)] exceeds 100: [dx^2 + dy^2]
    is greater than [100^2], on the numbers the two doubles stand for. *)
Definition euclideanExceeds100 (dx dy : float) : Prop :=
  match exactValue dx, exactValue dy with
  | Finite a, Finite b =>
      QArith_base.Qlt
        (QArith_base.inject_Z (100 * 100))
        (QArith_base.Qplus (QArith_base.Qmult a a) (QArith_base.Qmult b b))
  | NotANumber, _ | _, NotANumber => False
  | Infinite, _ | _, Infinite => True
  end.

(** A card released at (100, 2^-30) is farther than 100 from its origin,
    by 2^-60 on the square; the handler computes the distance 100 and
    snaps the card back: the ingredient stays. *)
Lemma release_not_euclidean :
  let st :=
    run someToString
      [Capture thousandAs (Fulfilled riceAndEggAnalysis) true true]
      (initialState []) in
  let rice := formatIngredient 0 (RawName (str "Rice")) in
  rice ∈ ingredients st /\
  euclideanExceeds100 100 0x1p-30 /\
  ingredients (onPanResponderRelease 100 0x1p-30 rice st) = ingredients st /\
  (rice ∈ ingredients (onPanResponderRelease 100 0x1p-30 rice st)).
Proof.
  cbv zeta. split; [vm_compute; left|]. split; [vm_compute; reflexivity|].
  split; [vm_compute; reflexivity | vm_compute; left].
Qed.

(** On the other side of the threshold the two agree on these samples. *)
Example release_euclidean_samples :
  (euclideanExceeds100 60 81 /\ PrimFloat.ltb 100%float (displacement 60 81) = true) /\
  (~ euclideanExceeds100 60 80 /\ PrimFloat.ltb 100%float (displacement 60 80) = false).
Proof.
  split; split; try (vm_compute; reflexivity).
  vm_compute. discriminate.
Qed.
